(** * Aliyun OSS bucket adapter (pkg/objstore/oss/oss.go)

    A shallow embedding of the adapter's operations: [Config.validate],
    [Bucket.Upload], [Bucket.Iter], [Bucket.getRange] with its two
    entry points [Get] and [GetRange], and [Bucket.IsObjNotFoundErr].

    Go strings are byte strings: [string].  [int64] values are integers
    with the wrap-around of the addition written out.  A Go [error] is
    an [option error] ([None] is [nil]).  The SDK client, the local file
    system, the input reader and the visitor closure are effects: they
    are threaded as explicit state, and every SDK call is recorded in a
    trace so that "no backend call was made" is a statement about it. *)

From Stdlib Require Import ZArith Ascii String DecimalString List Bool Lia.
From Stdlib.Strings Require Import Byte.
From stdpp Require Import gmap strings list fin_maps.
Import ListNotations.

Local Open Scope string_scope.
Local Open Scope Z_scope.

(* ===================================================================== *)
(** ** Strings: the functions of Go's [strings] package the file uses    *)
(* ===================================================================== *)

Module GoStrings.

(** [len(s)] *)
Definition len (s : string) : nat := String.length s.

(** [strings.HasPrefix(s, prefix)] *)
Fixpoint HasPrefix (s prefix : string) {struct prefix} : bool :=
  match prefix, s with
  | EmptyString, _ => true
  | String _ _, EmptyString => false
  | String p prefix', String c s' => Ascii.eqb c p && HasPrefix s' prefix'
  end.

(** [strings.Contains(s, substr)]: [substr] occurs at some position
    of [s]. *)
Fixpoint Contains (s substr : string) : bool :=
  HasPrefix s substr ||
  match s with
  | EmptyString => false
  | String _ s' => Contains s' substr
  end.

(** [strings.HasSuffix(s, suffix)]:
    [len(s) >= len(suffix) && s[len(s)-len(suffix):] == suffix]. *)
Definition HasSuffix (s suffix : string) : bool :=
  (len suffix <=? len s)%nat &&
  String.eqb (substring (len s - len suffix) (len suffix) s) suffix.

(** [strings.TrimSuffix(s, suffix)]: [s] without the trailing
    [suffix], or [s] itself when it does not end with it. *)
Definition TrimSuffix (s suffix : string) : string :=
  if HasSuffix s suffix then substring 0 (len s - len suffix) s else s.

End GoStrings.
Import GoStrings.

(* ===================================================================== *)
(** ** Errors                                                            *)
(* ===================================================================== *)

(** What a failure was, for error values that come from outside this
    file (the SDK, the network stack, the operating system, the input
    reader, the visitor).  The adapter never sees this tag: Go's [error]
    interface only offers the text. *)
Inductive ErrClass : Type :=
| ObjectNotFound      (* the named object does not exist *)
| Transport           (* network failure, no answer from the service *)
| Permission          (* the service refused the credentials *)
| MalformedRequest    (* the service refused the request *)
| LocalIO             (* local file or reader failure *)
| OtherFailure.

Inductive error : Type :=
| errorString (s : string)                   (* errors.New, errors.Errorf *)
| withMessage (cause : error) (msg : string) (* errors.Wrap(cause, msg) *)
| EOF                                        (* io.EOF *)
| foreign (class : ErrClass) (text : string).

Global Instance ErrClass_eq_dec : EqDecision ErrClass.
Proof. solve_decision. Defined.

Global Instance error_eq_dec : EqDecision error.
Proof. solve_decision. Defined.

Module errors.
Definition New (s : string) : error := errorString s.
Definition Errorf (s : string) : error := errorString s.
Definition Wrap (err : error) (msg : string) : error := withMessage err msg.
End errors.

(** [err.Error()] *)
Fixpoint Error (err : error) : string :=
  match err with
  | errorString s => s
  | withMessage cause msg => msg ++ ": " ++ Error cause
  | EOF => "EOF"
  | foreign _ text => text
  end.

(** The failure an error value stands for; wrapping keeps the cause's. *)
Fixpoint classOf (err : error) : ErrClass :=
  match err with
  | errorString _ => OtherFailure
  | withMessage cause _ => classOf cause
  | EOF => LocalIO
  | foreign c _ => c
  end.

(** A call that returns [(value, error)]. *)
Inductive result (A : Type) : Type :=
| Ok (a : A)
| Err (e : error).
Arguments Ok {A} a.
Arguments Err {A} e.

(* ===================================================================== *)
(** ** Config (oss.go:33-49)                                             *)
(* ===================================================================== *)

Record Config : Type := mkConfig {
  Bucket : string;
  Endpoint : string;
  AccessID : string;
  AccessKey : string;
}.

Definition validate (conf : Config) : option error :=
  if String.eqb (Bucket conf) "" ||
     String.eqb (Endpoint conf) "" ||
     String.eqb (AccessID conf) "" ||
     String.eqb (AccessKey conf) ""
  then Some (errors.New "insufficient oss configuration information")
  else None.

(** The one error value [validate] produces. *)
Definition insufficient : error :=
  errors.New "insufficient oss configuration information".

(** The four mandatory fields, and those of them a configuration lacks. *)
Inductive Field : Type := FBucket | FEndpoint | FAccessID | FAccessKey.

Definition fieldValue (f : Field) (conf : Config) : string :=
  match f with
  | FBucket => Bucket conf
  | FEndpoint => Endpoint conf
  | FAccessID => AccessID conf
  | FAccessKey => AccessKey conf
  end.

Definition missingFields (conf : Config) : list Field :=
  List.filter (fun f => String.eqb (fieldValue f conf) "")
              [FBucket; FEndpoint; FAccessID; FAccessKey].

(* ===================================================================== *)
(** ** The SDK (github.com/aliyun/aliyun-oss-go-sdk/oss) as the file     *)
(**    uses it                                                           *)
(* ===================================================================== *)

Definition bytes : Type := list Byte.byte.

(** A local file system: path to contents. *)
Abbreviation FS := (gmap string bytes).

(** [int64]: the value of an integer expression after wrap-around. *)
Definition int64 (z : Z) : Z := (z + 2 ^ 63) mod 2 ^ 64 - 2 ^ 63.

Module oss.

(** Request options, as data. *)
Inductive Option : Type :=
| MaxKeys (n : Z)
| Marker (s : string)
| Prefix (s : string)
| Delimiter (s : string)
| Range (start end_ : Z).

Record ObjectProperties : Type := mkObject { Key : string }.

Record ListObjectsResult : Type := mkPage {
  Objects : list ObjectProperties;
  CommonPrefixes : list string;
  NextMarker : string;
  IsTruncated : bool;
}.

(** The bucket client, over a backend state [B]: each call answers and
    may change the backend.  [UploadFile] reads the local file itself. *)
Record Client (B : Type) : Type := mkClient {
  ListObjects : list Option -> B -> result ListObjectsResult * B;
  GetObject : string -> list Option -> B -> result bytes * B;
  UploadFile : string -> string -> Z -> FS -> B -> option error * B;
}.
Arguments ListObjects {B} _ _ _.
Arguments GetObject {B} _ _ _ _.
Arguments UploadFile {B} _ _ _ _ _ _.

End oss.

(** What a run did that a caller can observe: the SDK calls issued and
    the visitor invocations with what the visitor answered, in order. *)
Inductive Event : Type :=
| CallListObjects (options : list oss.Option)
| CallGetObject (name : string) (options : list oss.Option)
| CallUploadFile (name path : string) (partSize : Z)
| Visit (name : string) (answer : option error).

Record World (B : Type) : Type := mkWorld {
  backend : B;
  fs : FS;
  trace : list Event;
}.
Arguments mkWorld {B} _ _ _.
Arguments backend {B} _.
Arguments fs {B} _.
Arguments trace {B} _.

Definition isCall (ev : Event) : bool :=
  match ev with Visit _ _ => false | _ => true end.

(** The names the visitor was invoked on, in order. *)
Definition visited (t : list Event) : list string :=
  flat_map (fun ev => match ev with Visit n _ => [n] | _ => [] end) t.

(** How an operation leaves: it returns, or it panics, or (for the
    pagination loop only, which the source does not bound) the pages
    granted to the run are used up. *)
Inductive Outcome (A : Type) : Type :=
| Return (a : A)
| Panic (v : error)
| OutOfFuel.
Arguments Return {A} a.
Arguments Panic {A} v.
Arguments OutOfFuel {A}.

(** DirDelim is the delimiter used to model a directory structure. *)
Definition dirDelim : string := "/".

(* ===================================================================== *)
(** ** Local effects of Upload: the scratch file and the input reader    *)
(* ===================================================================== *)

(** The failures the local system injects.  [os.Create], [fo.Close] and
    [os.Remove] fail per path; a write of the [bufio.Writer] to the file
    fails depending on the bytes the writer has accepted so far and the
    chunk it is given; a flush on the bytes accepted so far. *)
Record LocalOS : Type := mkLocalOS {
  create_fails : string -> option error;
  write_fails : bytes -> bytes -> option error;
  flush_fails : bytes -> option error;
  close_fails : string -> option error;
  remove_fails : string -> option error;
}.

(** The size of the buffer of [bufio.NewWriter]. *)
Definition defaultBufSize : nat := 4096.

(** An [io.Reader] as the answers of its successive [Read(buf)] calls:
    the bytes put into [buf] (so [n] is their number, at most
    [len(buf)]) and the error.  A reader whose answers are used up
    answers [(0, io.EOF)]. *)
Definition Reader : Type := list (bytes * option error).

(** Code that runs on a state and either goes on with a value or
    panics. *)
Inductive Flow (A : Type) : Type :=
| Normal (a : A)
| Panicking (v : error).
Arguments Normal {A} a.
Arguments Panicking {A} v.

Definition Go (St A : Type) : Type := St -> Flow A * St.

Definition ret {St A} (a : A) : Go St A := fun s => (Normal a, s).

Definition panic {St A} (v : error) : Go St A := fun s => (Panicking v, s).

Definition bind {St A C} (m : Go St A) (k : A -> Go St C) : Go St C :=
  fun s =>
    match m s with
    | (Normal a, s') => k a s'
    | (Panicking v, s') => (Panicking v, s')
    end.

(** [defer d] around [body]: [d] runs when [body] returns and when it
    panics; a panic of [d] replaces either. *)
Definition defer {St A} (d : Go St unit) (body : Go St A) : Go St A :=
  fun s =>
    match body s with
    | (r, s') =>
        match d s' with
        | (Normal _, s'') => (r, s'')
        | (Panicking v, s'') => (Panicking v, s'')
        end
    end.

Declare Scope go_scope.
Delimit Scope go_scope with go.
Notation "x <- m ;; k" := (bind m (fun x => k))
  (at level 100, m at next level, right associativity) : go_scope.

Definition outcomeOf {St A} (r : Flow A * St) : Outcome A * St :=
  match r with
  | (Normal a, s) => (Return a, s)
  | (Panicking v, s) => (Panic v, s)
  end.

(* ===================================================================== *)
(** ** Bucket operations                                                 *)
(* ===================================================================== *)

Section Bucket.

Context {B : Type}.
Variable client : oss.Client B.
Variable local : LocalOS.

(** *** SDK calls, recorded in the trace *)

Definition bkt_ListObjects (options : list oss.Option) (w : World B)
  : result oss.ListObjectsResult * World B :=
  let '(r, b') := oss.ListObjects client options (backend w) in
  (r, mkWorld b' (fs w) (trace w ++ [CallListObjects options])).

Definition bkt_GetObject (name : string) (options : list oss.Option) (w : World B)
  : result bytes * World B :=
  let '(r, b') := oss.GetObject client name options (backend w) in
  (r, mkWorld b' (fs w) (trace w ++ [CallGetObject name options])).

Definition bkt_UploadFile (name path : string) (partSize : Z)
  : Go (World B) (option error) :=
  fun w =>
    let '(r, b') := oss.UploadFile client name path partSize (fs w) (backend w) in
    (Normal r, mkWorld b' (fs w) (trace w ++ [CallUploadFile name path partSize])).

(** *** Local calls of Upload *)

(** [os.Create(path)]: creates or truncates. *)
Definition os_Create (path : string) : Go (World B) (option error) :=
  fun w =>
    match create_fails local path with
    | Some e => (Normal (Some e), w)
    | None => (Normal None, mkWorld (backend w) (<[path := []]> (fs w)) (trace w))
    end.

(** [fo.Close()] *)
Definition fo_Close (path : string) : Go (World B) (option error) :=
  fun w => (Normal (close_fails local path), w).

(** The bytes of the file at [path]. *)
Definition contentOf (path : string) (w : World B) : bytes :=
  default [] (fs w !! path).

(** A write of [p] through the handle of the file at [path] that
    succeeds: the file grows by [p]. *)
Definition fo_Write (path : string) (p : bytes) (w : World B) : World B :=
  mkWorld (backend w) (<[path := (contentOf path w ++ p)%list]> (fs w)) (trace w).

(** [w.Write(p)] on the [bufio.Writer] over the file at [path], with
    [buf] in its buffer; it yields the buffer afterwards.  As bufio
    does: a chunk that fits the free part of the buffer is copied there,
    and nothing is written.  Otherwise the writer writes to the file:
    the chunk itself when the buffer is empty; else the buffer filled up
    with the head of the chunk, and then the rest of the chunk, which
    goes to the buffer if it fits there and to the file if not.  A call
    that writes fails when [write_fails] says so; what a failed write
    leaves on the file is not determined, and the file is left as it
    was. *)
Definition w_Write (path : string) (buf p : bytes)
  : Go (World B) (bytes * option error) :=
  fun w =>
    let avail := (defaultBufSize - length buf)%nat in
    if (length p <=? avail)%nat then (Normal ((buf ++ p)%list, None), w)
    else
      match write_fails local (contentOf path w ++ buf)%list p with
      | Some e => (Normal (buf, Some e), w)
      | None =>
          if (length buf =? 0)%nat then (Normal ([], None), fo_Write path p w)
          else
            let w1 := fo_Write path (buf ++ firstn avail p)%list w in
            let p' := skipn avail p in
            if (length p' <=? defaultBufSize)%nat then (Normal (p', None), w1)
            else (Normal ([], None), fo_Write path p' w1)
      end.

(** [w.Flush()]: nothing to do for an empty buffer; otherwise the
    buffer is written to the file, and that fails when [flush_fails]
    says so. *)
Definition w_Flush (path : string) (buf : bytes) : Go (World B) (option error) :=
  fun w =>
    if (length buf =? 0)%nat then (Normal None, w)
    else
      match flush_fails local (contentOf path w ++ buf)%list with
      | Some e => (Normal (Some e), w)
      | None => (Normal None, fo_Write path buf w)
      end.

(** [os.Remove(path)] *)
Definition os_Remove (path : string) : Go (World B) (option error) :=
  fun w =>
    match remove_fails local path with
    | Some e => (Normal (Some e), w)
    | None =>
        match fs w !! path with
        | None => (Normal (Some (foreign LocalIO ("remove " ++ path ++ ": no such file or directory"))), w)
        | Some _ => (Normal None, mkWorld (backend w) (delete path (fs w)) (trace w))
        end
    end.

(** *** Upload (oss.go:87-136) *)

(** The copy loop (oss.go:105-119), on the reader's remaining answers
    and the buffer of the writer over the file at [path]; it yields the
    buffer at [break]. *)
Fixpoint copyLoop (path : string) (r : Reader) (buf : bytes) : Go (World B) bytes :=
  match r with
  | [] => ret buf                             (* n == 0, err == io.EOF *)
  | (chunk, err) :: r' =>
      let after_check : Go (World B) bytes :=
        if (length chunk =? 0)%nat then ret buf
        else (bw <- w_Write path buf chunk ;;
              match snd bw with
              | Some e' => panic e'
              | None => copyLoop path r' (fst bw)
              end)%go in
      match err with
      | Some e => if bool_decide (e = EOF) then after_check else panic e
      | None => after_check
      end
  end.

Definition Upload_go (name : string) (r : Reader) : Go (World B) (option error) :=
  (let tmpFilename := "/tmp/thanos.tmp" in
   err <- os_Create tmpFilename ;;
   match err with
   | Some e => panic e
   | None =>
       defer (err <- fo_Close tmpFilename ;;
              match err with Some e => panic e | None => ret tt end)
         (buf <- copyLoop tmpFilename r [] ;;
          err <- w_Flush tmpFilename buf ;;
          match err with
          | Some e => panic e
          | None =>
              err <- bkt_UploadFile name tmpFilename (1024 * 1024 * 1024 * 2) ;;
              match err with
              | Some e => ret (Some (errors.Wrap e "upload oss object"))
              | None =>
                  err <- os_Remove tmpFilename ;;
                  match err with
                  | Some e => ret (Some (errors.Wrap e "deleted tmp uploadFile"))
                  | None => ret None
                  end
              end
          end)
   end)%go.

Definition Upload (name : string) (r : Reader) (w : World B)
  : Outcome (option error) * World B :=
  outcomeOf (Upload_go name r w).

(** *** Iter (oss.go:149-180) *)

Section Visitor.

(** The visitor [f func(string) error] is a closure over state of its
    own, [S]. *)
Context {S : Type}.
Variable f : string -> S -> option error * S.

(** [for _, name := range listNames { if err := f(name); ... }] *)
Fixpoint visitAll (listNames : list string) (s : S) (w : World B)
  : option error * S * World B :=
  match listNames with
  | [] => (None, s, w)
  | name :: rest =>
      let '(err, s') := f name s in
      let w' := mkWorld (backend w) (fs w) (trace w ++ [Visit name err]) in
      match err with
      | Some e => (Some e, s', w')
      | None => visitAll rest s' w'
      end
  end.

(** The names of a page in the order [listNames] collects them. *)
Definition listNamesOf (lor : oss.ListObjectsResult) : list string :=
  (map oss.Key (oss.Objects lor) ++ oss.CommonPrefixes lor)%list.

(** The options of the request for the page at [marker]. *)
Definition listOptions (dir marker : string) : list oss.Option :=
  [oss.MaxKeys 1000; oss.Marker marker; oss.Prefix dir; oss.Delimiter "/"].

(** The [for] loop of Iter; [fuel] bounds the number of pages
    requested. *)
Fixpoint iterLoop (fuel : nat) (dir marker : string) (s : S) (w : World B)
  : Outcome (option error) * S * World B :=
  match fuel with
  | O => (OutOfFuel, s, w)
  | Datatypes.S fuel' =>
      match bkt_ListObjects (listOptions dir marker) w with
      | (Err err, w1) => (Return (Some err), s, w1)
      | (Ok lor, w1) =>
          match visitAll (listNamesOf lor) s w1 with
          | (Some err, s2, w2) => (Return (Some err), s2, w2)
          | (None, s2, w2) =>
              let marker := oss.NextMarker lor in
              if negb (oss.IsTruncated lor) then (Return None, s2, w2)
              else iterLoop fuel' dir marker s2 w2
          end
      end
  end.

(** The value of [dir] after oss.go:150-152. *)
Definition iterDir (dir : string) : string :=
  if negb (String.eqb dir "") then TrimSuffix dir dirDelim ++ dirDelim else dir.

Definition Iter (fuel : nat) (dir : string) (s : S) (w : World B)
  : Outcome (option error) * S * World B :=
  let dir := iterDir dir in
  let marker := "" in
  iterLoop fuel dir marker s w.

End Visitor.

(** *** getRange, Get, GetRange (oss.go:182-216) *)

Definition getRange (name : string) (off length : Z) (w : World B)
  : result bytes * World B :=
  if (len name =? 0)%nat
  then (Err (errors.Errorf "given object name should not empty"), w)
  else
    let options := [oss.Range off (int64 (int64 (off + length) - 1))] in
    let options :=
      if negb (length =? -1)
      then [oss.Range off (int64 (int64 (off + length) - 1))]
      else options in
    match bkt_GetObject name options w with
    | (Err err, w') => (Err err, w')
    | (Ok body, w') => (Ok body, w')
    end.

Definition Get (name : string) (w : World B) : result bytes * World B :=
  getRange name 0 (-1) w.

Definition GetRange (name : string) (off length : Z) (w : World B)
  : result bytes * World B :=
  getRange name off length w.

End Bucket.

(** *** setRange (oss.go:235-246) *)

Module cos.
Record ObjectGetOptions : Type := mkOptions { Range : string }.
End cos.

(** [fmt.Sprintf("%d", z)] *)
Definition Sprintf_d (z : Z) : string := NilZero.string_of_int (Z.to_int z).

(** The range check on [cos] options.  Its only call, in getRange, is
    commented out (oss.go:189-191), so nothing runs it.  It returns the
    error and the options with their [Range] field as it left it. *)
Definition setRange (opts : cos.ObjectGetOptions) (start end_ : Z)
  : option error * cos.ObjectGetOptions :=
  if (start =? 0) && (end_ <? 0) then
    (None, cos.mkOptions ("bytes=" ++ Sprintf_d end_))
  else if (0 <? start) && (end_ =? 0) then
    (None, cos.mkOptions ("bytes=" ++ Sprintf_d start ++ "-"))
  else if (0 <=? start) && (start <=? end_) then
    (None, cos.mkOptions ("bytes=" ++ Sprintf_d start ++ "-" ++ Sprintf_d end_))
  else
    (Some (errors.Errorf ("Invalid range specified: start=" ++ Sprintf_d start
                          ++ " end=" ++ Sprintf_d end_)),
     opts).

(** *** IsObjNotFoundErr (oss.go:224-226) *)

Definition IsObjNotFoundErr (err : error) : bool :=
  Contains (Error err) "StatusCode=404".

(* ===================================================================== *)
(** ** Notions the statements use                                        *)
(* ===================================================================== *)

Section Pages.

Context {B : Type}.
Variable client : oss.Client B.

(** The pages the backend serves for [dir] when asked first at [marker]
    and then at each returned cursor, up to and including the first
    page that is not truncated; the backend state before and after. *)
Inductive pageChain (dir : string)
  : string -> B -> list oss.ListObjectsResult -> B -> Prop :=
| chain_last marker b lor b' :
    oss.ListObjects client (listOptions dir marker) b = (Ok lor, b') ->
    oss.IsTruncated lor = false ->
    pageChain dir marker b [lor] b'
| chain_more marker b lor b' rest b'' :
    oss.ListObjects client (listOptions dir marker) b = (Ok lor, b') ->
    oss.IsTruncated lor = true ->
    pageChain dir (oss.NextMarker lor) b' rest b'' ->
    pageChain dir marker b (lor :: rest) b''.

End Pages.

(** The events of a listing that runs through [pages] from [marker]
    with a visitor that accepts every name. *)
Fixpoint chainTrace (dir marker : string) (pages : list oss.ListObjectsResult)
  : list Event :=
  match pages with
  | [] => []
  | lor :: rest =>
      (CallListObjects (listOptions dir marker)
         :: map (fun n => Visit n None) (listNamesOf lor)
         ++ chainTrace dir (oss.NextMarker lor) rest)%list
  end.

(** The visitor's state after it accepted [names] in order. *)
Definition visitorAfter {S : Type} (f : string -> S -> option error * S)
  (names : list string) (s : S) : S :=
  fold_left (fun s n => snd (f n s)) names s.

(** An event that records a visitor failure. *)
Definition isFailedVisit (ev : Event) : bool :=
  match ev with Visit _ (Some _) => true | _ => false end.

(** What a run recorded after the events it started with: either no
    failed visit at all, or exactly one, as the last event, and then the
    run returned the visitor's error. *)
Definition stopsAtFailure (r : Outcome (option error)) (new : list Event) : Prop :=
  forallb (fun ev => negb (isFailedVisit ev)) new = true \/
  exists pre name e,
    new = (pre ++ [Visit name (Some e)])%list /\
    forallb (fun ev => negb (isFailedVisit ev)) pre = true /\
    r = Return (Some e).

(** The visits recorded in a list of events are what the visitor did,
    from state [s] on: each recorded answer is the visitor's answer on
    that name in the state the visits before left. *)
Fixpoint answered {S : Type} (f : string -> S -> option error * S)
  (s : S) (events : list Event) : Prop :=
  match events with
  | [] => True
  | Visit n a :: rest => a = fst (f n s) /\ answered f (snd (f n s)) rest
  | _ :: rest => answered f s rest
  end.

(** Reader answers on which the copy loop goes round: some bytes, and
    no error other than [io.EOF]. *)
Definition goesOn (a : bytes * option error) : bool :=
  negb (length (fst a) =? 0)%nat &&
  match snd a with
  | None => true
  | Some e => bool_decide (e = EOF)
  end.

(** Reader answers at which the copy loop breaks: no bytes, and no
    error other than [io.EOF] (or no answer left). *)
Definition breaksAt (r : Reader) : bool :=
  match r with
  | [] => true
  | (chunk, err) :: _ =>
      (length chunk =? 0)%nat &&
      match err with
      | None => true
      | Some e => bool_decide (e = EOF)
      end
  end.

(** Every write of the chunks of [pre], one after the other starting
    from [held], succeeds. *)
Fixpoint writesOk (local : LocalOS) (held : bytes) (pre : Reader) : bool :=
  match pre with
  | [] => true
  | (chunk, _) :: pre' =>
      match write_fails local held chunk with
      | Some _ => false
      | None => writesOk local (held ++ chunk)%list pre'
      end
  end.

(** The bytes of the answers [pre], in order. *)
Definition bytesOf (pre : Reader) : bytes := concat (map fst pre).

(** What a [w.Write(p)] that succeeds leaves on the file and in the
    buffer, from what they held. *)
Definition bufioWrite (disk buf p : bytes) : bytes * bytes :=
  let avail := (defaultBufSize - length buf)%nat in
  if (length p <=? avail)%nat then (disk, (buf ++ p)%list)
  else if (length buf =? 0)%nat then ((disk ++ p)%list, [])
  else
    let disk1 := (disk ++ buf ++ firstn avail p)%list in
    let p' := skipn avail p in
    if (length p' <=? defaultBufSize)%nat then (disk1, p')
    else ((disk1 ++ p')%list, []).

(** The file and the buffer after the chunks of [pre] were written one
    after the other. *)
Fixpoint stagedFrom (disk buf : bytes) (pre : Reader) : bytes * bytes :=
  match pre with
  | [] => (disk, buf)
  | (chunk, _) :: pre' =>
      stagedFrom (fst (bufioWrite disk buf chunk)) (snd (bufioWrite disk buf chunk)) pre'
  end.

(** The world with [disk] in the scratch file. *)
Definition staged {B : Type} (w : World B) (disk : bytes) : World B :=
  mkWorld (backend w) (<["/tmp/thanos.tmp" := disk]> (fs w)) (trace w).

(** What has reached a fresh scratch file, and what is still in the
    buffer, after the chunks of [pre]. *)
Definition onDisk (pre : Reader) : bytes := fst (stagedFrom [] [] pre).
Definition inBuffer (pre : Reader) : bytes := snd (stagedFrom [] [] pre).

Definition tmpFilename : string := "/tmp/thanos.tmp".

(** The world once the scratch file is created, before anything is
    copied. *)
Definition created {B : Type} (w : World B) : World B :=
  mkWorld (backend w) (<[tmpFilename := []]> (fs w)) (trace w).

(** The value a panic of Upload's body ends with: the deferred Close
    runs, and if it fails its error is the one the process panics
    with. *)
Definition afterClose (local : LocalOS) (v : error) : error :=
  match close_fails local tmpFilename with
  | Some c => c
  | None => v
  end.

(* ===================================================================== *)
(** ** A synthetic backend and concrete inputs                           *)
(* ===================================================================== *)

Module Synthetic.

Import oss.

(** Three pages under "a/": two truncated ones and an empty last one. *)
Definition page1 : ListObjectsResult :=
  mkPage [mkObject "a/1"; mkObject "a/2"] ["a/x/"] "a/2" true.
Definition page2 : ListObjectsResult :=
  mkPage [mkObject "a/3"] ["a/y/"; "a/z/"] "a/3" true.
Definition page3 : ListObjectsResult :=
  mkPage [] [] "" false.

Definition noSuchKey : error :=
  foreign ObjectNotFound
    "oss: service returned error: StatusCode=404, ErrorCode=NoSuchKey".

(** The backend state is the object store.  Listing serves the three
    pages for prefix "a/"; [GetObject] serves the stored object, whole
    (this backend ignores range options); [UploadFile] stores the
    file's contents, or fails with [upload_err] when that is set. *)
Definition client (upload_err : option error) : Client (gmap string bytes) :=
  mkClient (gmap string bytes)
    (fun options b =>
       match options with
       | [MaxKeys _; Marker m; Prefix p; Delimiter _] =>
           if negb (String.eqb p "a/") then (Ok (mkPage [] [] "" false), b)
           else if String.eqb m "" then (Ok page1, b)
           else if String.eqb m "a/2" then (Ok page2, b)
           else (Ok page3, b)
       | _ => (Err (foreign MalformedRequest "oss: bad list request"), b)
       end)
    (fun name options b =>
       match b !! name with
       | Some content => (Ok content, b)
       | None => (Err noSuchKey, b)
       end)
    (fun name path partSize files b =>
       match upload_err with
       | Some e => (Some e, b)
       | None =>
           match files !! path with
           | Some content => (None, <[name := content]> b)
           | None => (Some (foreign LocalIO "open: no such file or directory"), b)
           end
       end).

Definition hello : bytes := ["h"; "e"; "l"; "l"; "o"]%byte.

(** A world whose bucket holds one object. *)
Definition w0 : World (gmap string bytes) :=
  mkWorld {["obj" := hello]} ∅ [].

(** A local system on which nothing fails, and one on which removing
    the scratch file fails. *)
Definition sound : LocalOS :=
  mkLocalOS (fun _ => None) (fun _ _ => None) (fun _ => None)
            (fun _ => None) (fun _ => None).

Definition busy : error := foreign LocalIO "remove /tmp/thanos.tmp: device or resource busy".

Definition stuck : LocalOS :=
  mkLocalOS (fun _ => None) (fun _ _ => None) (fun _ => None)
            (fun _ => None) (fun _ => Some busy).

(** A reader that delivers "hello" in two chunks and then ends, and one
    whose second read fails. *)
Definition twoChunks : Reader :=
  [(["h"; "e"]%byte, None); (["l"; "l"; "o"]%byte, Some EOF)].

Definition brokenPipe : error := foreign LocalIO "read: broken pipe".

Definition failing : Reader :=
  [(["h"; "e"]%byte, None); ([], Some brokenPipe)].

(** A visitor that records the names it is given and refuses [bad]. *)
Definition stop : error := errorString "stop".

Definition recorder (bad : string) (name : string) (seen : list string)
  : option error * list string :=
  if String.eqb name bad then (Some stop, (seen ++ [name])%list)
  else (None, (seen ++ [name])%list).

(** A transport failure while requesting the object named
    "StatusCode=404": the text carries the request URL. *)
Definition timeout : error :=
  foreign Transport
    "Get http://bkt.oss.example.com/StatusCode=404: dial tcp: i/o timeout".

End Synthetic.

(* ===================================================================== *)
(** ** The rest of the file: construction, Delete, Exists, test helpers  *)
(* ===================================================================== *)

(** The [Bucket] struct (oss.go:26-30), over the types of the logger
    and of the SDK bucket handle. *)
Module BucketStruct.
Record t (L H : Type) : Type := mk { logger : L; bkt : H; name : string }.
Arguments mk {L H} _ _ _.
Arguments logger {L H} _.
Arguments bkt {L H} _.
Arguments name {L H} _.
End BucketStruct.

(** What construction takes from its libraries: the no-op logger,
    [yaml.Unmarshal(conf, &config)] (it fills the configuration it is
    given), [yaml.Marshal], [oss.New(endpoint, id, key)] and
    [client.Bucket(name)]. *)
Record Construct (L C H : Type) : Type := mkConstruct {
  NewNopLogger : L;
  yaml_Unmarshal : bytes -> Config -> option error * Config;
  yaml_Marshal : Config -> result bytes;
  oss_New : string -> string -> string -> result C;
  client_Bucket : C -> string -> result H;
}.
Arguments NewNopLogger {L C H} _.
Arguments yaml_Unmarshal {L C H} _ _ _.
Arguments yaml_Marshal {L C H} _ _.
Arguments oss_New {L C H} _ _ _ _.
Arguments client_Bucket {L C H} _ _ _.

(** The SDK calls of Delete and Exists, on the backend state. *)
Record ObjectCalls (B : Type) : Type := mkObjectCalls {
  DeleteObject : string -> B -> option error * B;
  IsObjectExist : string -> B -> (bool * option error) * B;
}.
Arguments DeleteObject {B} _ _ _.
Arguments IsObjectExist {B} _ _ _.

Section Construction.

Context {L C H : Type}.
Variable ext : Construct L C H.

(** NewBucket (oss.go:51-79); [logger] is [None] for a nil logger. *)
Definition NewBucket (logger : option L) (conf : bytes) (component : string)
  : result (BucketStruct.t L H) :=
  let logger :=
    match logger with
    | None => NewNopLogger ext
    | Some l => l
    end in
  let config := mkConfig "" "" "" "" in
  match yaml_Unmarshal ext conf config with
  | (Some err, _) => Err (errors.Wrap err "parsing oss configuration")
  | (None, config) =>
      match validate config with
      | Some err => Err (errors.Wrap err "validate oss configuration")
      | None =>
          match oss_New ext (Endpoint config) (AccessID config) (AccessKey config) with
          | Err err => Err (errors.Wrap err "initialize oss client")
          | Ok client =>
              match client_Bucket ext client (Bucket config) with
              | Err err => Err (errors.Wrap err "new bucket")
              | Ok bucket => Ok (BucketStruct.mk logger bucket (Bucket config))
              end
          end
      end
  end.

(** Name (oss.go:82-84) *)
Definition Name (b : BucketStruct.t L H) : string := BucketStruct.name b.

End Construction.

Section ObjectOperations.

Context {B : Type}.
Variable calls : ObjectCalls B.

(** Delete (oss.go:139-145) *)
Definition Delete (name : string) (b : B) : option error * B :=
  match DeleteObject calls name b with
  | (Some err, b') => (Some (errors.Wrap err "delete oss object"), b')
  | (None, b') => (None, b')
  end.

(** Exists (oss.go:219-221) *)
Definition Exists (name : string) (b : B) : (bool * option error) * B :=
  IsObjectExist calls name b.

End ObjectOperations.

(** Close (oss.go:228) *)
Definition Close : option error := None.

(** validateForTest (oss.go:328-336) *)
Definition validateForTest (conf : Config) : option error :=
  if String.eqb (Endpoint conf) "" ||
     String.eqb (AccessID conf) "" ||
     String.eqb (AccessKey conf) "" ||
     String.eqb (Bucket conf) ""
  then Some (errors.New "insufficient oss configuration information")
  else None.

(** configFromEnv (oss.go:248-257); [getenv] is [os.Getenv]. *)
Definition configFromEnv (getenv : string -> string) : Config :=
  mkConfig (getenv "OSS_BUCKET") (getenv "OSS_ENDPOINT")
           (getenv "OSS_ACCESSID") (getenv "OSS_ACCESSKEY").

(** The close function NewTestBucket hands back: [func() {}], or the
    one that logs "deleting bucket ...". *)
Inductive CloseFn : Type := closeNothing | closeLogsDeleting.

(** What NewTestBucket takes from outside besides construction: the
    environment, the random number [src.Int63()] of the source seeded
    with the clock, and the two library calls that shape the temporary
    name, [fmt.Sprintf("test_%x", n)] and [strings.Replace]. *)
Record TestEnv : Type := mkTestEnv {
  Getenv : string -> string;
  Int63 : Z;
  Sprintf_test_x : Z -> string;
  strings_Replace : string -> string -> string -> Z -> string;
}.

(** The error for a bucket named in the environment without the
    permission to use it (oss.go:269-273). *)
Definition bucketIsDefined : error :=
  errors.New
    ("OSS_BUCKET is defined. Normally this tests will create temporary bucket " ++
     "and delete it after test. Unset COS_BUCKET env variable to use default logic. If you really want to run " ++
     "tests against provided (NOT USED!) bucket, set THANOS_ALLOW_EXISTING_BUCKET_USE=true. WARNING: That bucket " ++
     "needs to be manually cleared. This means that it is only useful to run one test in a time. This is due " ++
     "to safety (accidentally pointing prod bucket for test) as well as OSS not being fully strong consistent.").

Section TestBucket.

Context {L C B : Type}.
Variable ext : Construct L C (oss.Client B).
Variable env : TestEnv.

(** The visitor of oss.go:286-288: it refuses whatever it is given. *)
Definition notEmpty (c : Config) (f : string) (s : unit) : option error * unit :=
  (Some (errors.Errorf ("bucket " ++ Bucket c ++ " is not empty")), s).

(** NewTestBucket (oss.go:261-326).  It yields what it returns, the
    lines given to [t.Log] (each as its arguments) and the world;
    [fuel] bounds the pages of the listing it runs. *)
Definition NewTestBucket (fuel : nat) (w : World B)
  : Outcome (result (BucketStruct.t L (oss.Client B) * CloseFn))
    * list (list string) * World B :=
  let c := configFromEnv (Getenv env) in
  match validateForTest c with
  | Some err => (Return (Err err), [], w)
  | None =>
      if negb (String.eqb (Bucket c) "") then
        if String.eqb (Getenv env "THANOS_ALLOW_EXISTING_BUCKET_USE") "" then
          (Return (Err bucketIsDefined), [], w)
        else
          match yaml_Marshal ext c with
          | Err err => (Return (Err err), [], w)
          | Ok bc =>
              match NewBucket ext (Some (NewNopLogger ext)) bc "thanos-e2e-test" with
              | Err err => (Return (Err err), [], w)
              | Ok b =>
                  match Iter (BucketStruct.bkt b) (notEmpty c) fuel "" tt w with
                  | (OutOfFuel, _, w') => (OutOfFuel, [], w')
                  | (Panic v, _, w') => (Panic v, [], w')
                  | (Return (Some err), _, w') =>
                      (Return (Err (errors.Wrap err ("oss check bucket " ++ Bucket c))),
                       [], w')
                  | (Return None, _, w') =>
                      (Return (Ok (b, closeNothing)),
                       [["WARNING. Reusing"; Bucket c;
                         "OSS bucket for OSS tests. Manual cleanup afterwards is required"]],
                       w')
                  end
              end
          end
      else
        let tmpBucketName :=
          strings_Replace env (Sprintf_test_x env (Int63 env)) "_" "-" (-1) in
        let tmpBucketName :=
          if (31 <=? len tmpBucketName)%nat then substring 0 31 tmpBucketName
          else tmpBucketName in
        let c := mkConfig tmpBucketName (Endpoint c) (AccessID c) (AccessKey c) in
        match yaml_Marshal ext c with
        | Err err => (Return (Err err), [], w)
        | Ok bc =>
            match NewBucket ext (Some (NewNopLogger ext)) bc "thanos-e2e-test" with
            | Err err => (Return (Err err), [], w)
            | Ok b =>
                (Return (Ok (b, closeLogsDeleting)),
                 [["created temporary OSS bucket for OSS tests with name"; tmpBucketName]],
                 w)
            end
        end
  end.

End TestBucket.

(** *** Further notions the statements use *)

Section TruncatedPages.

Context {B : Type}.
Variable client : oss.Client B.


End TruncatedPages.

Module Fixtures.

(** A backend that never finishes a listing: every page is truncated
    and holds one key. *)
Definition endless : oss.Client unit :=
  oss.mkClient unit
    (fun options b => (Ok (oss.mkPage [oss.mkObject "k"] [] "k" true), b))
    (fun name options b => (Err Synthetic.noSuchKey, b))
    (fun name path partSize files b => (None, b)).

(** A backend whose second page cannot be fetched. *)
Definition unreachable : error :=
  foreign Transport "Get http://bkt.oss.example.com/?marker=a/2: connection reset".

Definition flaky : oss.Client unit :=
  oss.mkClient unit
    (fun options b =>
       match options with
       | [oss.MaxKeys _; oss.Marker m; oss.Prefix _; oss.Delimiter _] =>
           if String.eqb m "" then (Ok Synthetic.page1, b)
           else (Err unreachable, b)
       | _ => (Err (foreign MalformedRequest "oss: bad list request"), b)
       end)
    (fun name options b => (Err Synthetic.noSuchKey, b))
    (fun name path partSize files b => (None, b)).

(** Delete and Exists on the object store of [Synthetic]. *)
Definition objectCalls : ObjectCalls (gmap string bytes) :=
  mkObjectCalls (gmap string bytes)
    (fun name b =>
       match b !! name with
       | Some _ => (None, delete name b)
       | None => (Some Synthetic.noSuchKey, b)
       end)
    (fun name b =>
       match b !! name with
       | Some _ => ((true, None), b)
       | None => ((false, None), b)
       end).

(** Construction whose YAML is a fixed table: five bytes decode to a
    complete configuration, two bytes to one without access key, and
    anything else is not YAML. *)
Definition complete : Config := mkConfig "thanos" "oss.example.com" "id" "key".

Definition construct : Construct unit unit (oss.Client (gmap string bytes)) :=
  mkConstruct unit unit (oss.Client (gmap string bytes))
    tt
    (fun conf config =>
       if (length conf =? 5)%nat then (None, complete)
       else if (length conf =? 2)%nat
            then (None, mkConfig "thanos" "oss.example.com" "id" "")
            else (Some (foreign OtherFailure "yaml: unmarshal errors"), config))
    (fun c => Ok Synthetic.hello)
    (fun endpoint id key => Ok tt)
    (fun client name => Ok (Synthetic.client None)).

(** Environments: the four OSS variables set, with and without the
    permission to use the bucket they name. *)
Definition getenv (allow : string) (key : string) : string :=
  if String.eqb key "OSS_BUCKET" then "thanos"
  else if String.eqb key "OSS_ENDPOINT" then "oss.example.com"
  else if String.eqb key "OSS_ACCESSID" then "id"
  else if String.eqb key "OSS_ACCESSKEY" then "key"
  else if String.eqb key "THANOS_ALLOW_EXISTING_BUCKET_USE" then allow
  else "".

Definition testEnv (allow : string) : TestEnv :=
  mkTestEnv (getenv allow) 255 (fun n => "test_ff") (fun s old new n => "test-ff").

(** A world whose bucket lists nothing under the root. *)
Definition emptyWorld : World (gmap string bytes) := mkWorld ∅ ∅ [].

(** Construction that binds the backend whose root listing is not
    empty. *)
Definition constructFlaky : Construct unit unit (oss.Client unit) :=
  mkConstruct unit unit (oss.Client unit)
    tt
    (fun conf config => (None, complete))
    (fun c => Ok Synthetic.hello)
    (fun endpoint id key => Ok tt)
    (fun client name => Ok flaky).

(** A local system on which closing the scratch file fails. *)
Definition closeError : error := foreign LocalIO "close /tmp/thanos.tmp: input/output error".

Definition closing : LocalOS :=
  mkLocalOS (fun _ => None) (fun _ _ => None) (fun _ => None)
            (fun _ => Some closeError) (fun _ => None).

(** A reader that answers no bytes and no error in the middle of its
    data. *)
Definition pausing : Reader :=
  [(["h"; "e"]%byte, None); ([], None); (["l"; "l"; "o"]%byte, Some EOF)].

(** A chunk larger than the buffer of the writer. *)
Definition large : bytes := repeat "x"%byte 5000.

(** A local system on which flushing the writer fails. *)
Definition noSpace : error := foreign LocalIO "write /tmp/thanos.tmp: no space left on device".

Definition full : LocalOS :=
  mkLocalOS (fun _ => None) (fun _ _ => None) (fun _ => Some noSpace)
            (fun _ => None) (fun _ => None).

(** A local system on which the writer cannot write to the file. *)
Definition readOnly : error := foreign LocalIO "write /tmp/thanos.tmp: read-only file system".

Definition unwritable : LocalOS :=
  mkLocalOS (fun _ => None) (fun _ _ => Some readOnly) (fun _ => None)
            (fun _ => None) (fun _ => None).

(** A visitor that accepts everything and keeps no state. *)
Definition accept (name : string) (s : unit) : option error * unit := (None, s).

End Fixtures.

(* ===================================================================== *)
(** ** Facts about the string functions                                  *)
(* ===================================================================== *)

Section StringFacts.

Local Open Scope nat_scope.

Lemma append_nil_l (b : string) : "" ++ b = b.
Proof. reflexivity. Qed.

Lemma append_cons (c : ascii) (a b : string) :
  String c a ++ b = String c (a ++ b).
Proof. reflexivity. Qed.

Ltac push_append := rewrite ?append_cons, ?append_nil_l; simpl.

Lemma length_append (a b : string) :
  String.length (a ++ b) = String.length a + String.length b.
Proof. induction a as [|c a IH]; push_append; [reflexivity | now rewrite IH]. Qed.

Lemma append_empty_r (a : string) : a ++ "" = a.
Proof. induction a as [|c a IH]; push_append; [reflexivity | now rewrite IH]. Qed.

Lemma append_assoc (a b c : string) : (a ++ b) ++ c = a ++ b ++ c.
Proof. induction a as [|x a IH]; push_append; [reflexivity | now rewrite IH]. Qed.

Lemma substring_all (b : string) : substring 0 (String.length b) b = b.
Proof. induction b as [|c b IH]; simpl; [reflexivity | now rewrite IH]. Qed.

Lemma substring_none (b : string) : substring 0 0 b = "".
Proof. destruct b; reflexivity. Qed.

Lemma substring_append_left (a b : string) :
  substring 0 (String.length a) (a ++ b) = a.
Proof.
  induction a as [|c a IH]; push_append.
  - apply substring_none.
  - now rewrite IH.
Qed.

Lemma substring_append_right (a b : string) :
  substring (String.length a) (String.length b) (a ++ b) = b.
Proof.
  induction a as [|c a IH]; push_append.
  - apply substring_all.
  - exact IH.
Qed.

(** Splitting a string at a position gives back the string. *)
Lemma substring_split (n : nat) (s : string) :
  n <= String.length s ->
  s = substring 0 n s ++ substring n (String.length s - n) s.
Proof.
  revert s. induction n as [|n IH]; intros s Hn.
  - rewrite substring_none, append_nil_l, Nat.sub_0_r.
    now rewrite substring_all.
  - destruct s as [|c s]; simpl in *; [lia|].
    rewrite append_cons. f_equal. apply IH. lia.
Qed.

Lemma HasPrefix_append (p t : string) : HasPrefix (p ++ t) p = true.
Proof.
  induction p as [|c p IH]; push_append; [reflexivity|].
  now rewrite Ascii.eqb_refl, IH.
Qed.

Lemma HasPrefix_inv (s p : string) :
  HasPrefix s p = true -> exists t, s = p ++ t.
Proof.
  revert s. induction p as [|c p IH]; intros s H.
  - exists s. reflexivity.
  - destruct s as [|d s]; simpl in H; [discriminate|].
    apply andb_true_iff in H as [Hc Hp].
    apply Ascii.eqb_eq in Hc. subst d.
    destruct (IH _ Hp) as [t ->]. exists t. reflexivity.
Qed.

Lemma Contains_unfold (s sub : string) :
  Contains s sub =
  HasPrefix s sub ||
  match s with EmptyString => false | String _ s' => Contains s' sub end.
Proof. destruct s; reflexivity. Qed.

(** [Contains] is substring occurrence. *)
Lemma Contains_iff (s sub : string) :
  Contains s sub = true <-> exists pre post, s = pre ++ sub ++ post.
Proof.
  split.
  - induction s as [|c s IH]; simpl; intros H.
    + apply orb_true_iff in H as [H|H]; [|discriminate].
      apply HasPrefix_inv in H as [t Ht]. exists "", t. exact Ht.
    + apply orb_true_iff in H as [H|H].
      * apply HasPrefix_inv in H as [t Ht]. exists "", t. exact Ht.
      * destruct (IH H) as (pre & post & ->).
        exists (String c pre), post. reflexivity.
  - intros (pre & post & ->).
    induction pre as [|c pre IH]; push_append.
    + now rewrite Contains_unfold, HasPrefix_append.
    + rewrite IH. apply orb_true_r.
Qed.

(** [HasSuffix] is: the string ends with the suffix. *)
Lemma HasSuffix_iff (s suf : string) :
  HasSuffix s suf = true <-> exists a, s = a ++ suf.
Proof.
  unfold HasSuffix, len. split.
  - intros H. apply andb_true_iff in H as [Hl He].
    apply Nat.leb_le in Hl. apply String.eqb_eq in He.
    exists (substring 0 (String.length s - String.length suf) s).
    pose proof (substring_split (String.length s - String.length suf) s) as Hs.
    replace (String.length s - (String.length s - String.length suf))
      with (String.length suf) in Hs by lia.
    rewrite He in Hs. apply Hs. lia.
  - intros [a ->]. rewrite length_append.
    apply andb_true_iff. split.
    + apply Nat.leb_le. lia.
    + replace (String.length a + String.length suf - String.length suf)
        with (String.length a) by lia.
      rewrite substring_append_right. apply String.eqb_refl.
Qed.

Lemma TrimSuffix_append (a suf : string) : TrimSuffix (a ++ suf) suf = a.
Proof.
  unfold TrimSuffix.
  replace (HasSuffix (a ++ suf) suf) with true
    by (symmetry; apply HasSuffix_iff; now exists a).
  unfold len. rewrite length_append.
  replace (String.length a + String.length suf - String.length suf)
    with (String.length a) by lia.
  apply substring_append_left.
Qed.

Lemma TrimSuffix_other (s suf : string) :
  HasSuffix s suf = false -> TrimSuffix s suf = s.
Proof. unfold TrimSuffix. now intros ->. Qed.

End StringFacts.

(* ===================================================================== *)
(** ** Config.validate                                                   *)
(* ===================================================================== *)

(** C8 (as the code has it): validate succeeds exactly when all four
    fields are non-empty, and when at least one of them is empty it fails
    with one fixed error, "insufficient oss configuration information",
    whichever field is missing. *)
Theorem validate_outcome (conf : Config) :
  ((Bucket conf <> "" /\ Endpoint conf <> "" /\
    AccessID conf <> "" /\ AccessKey conf <> "") <-> validate conf = None) /\
  ((Bucket conf = "" \/ Endpoint conf = "" \/
    AccessID conf = "" \/ AccessKey conf = "") <-> validate conf = Some insufficient).
Proof.
  unfold validate, insufficient.
  destruct (String.eqb_spec (Bucket conf) "") as [Hb|Hb];
  destruct (String.eqb_spec (Endpoint conf) "") as [He|He];
  destruct (String.eqb_spec (AccessID conf) "") as [Hi|Hi];
  destruct (String.eqb_spec (AccessKey conf) "") as [Hk|Hk];
  simpl; (split; (split; intros H));
  try discriminate; try reflexivity; try tauto.
Qed.

(** C8, the claim refuted: the error does not name the missing field.  A
    configuration that lacks only the bucket and one that lacks only the
    endpoint fail with the same error value, so nothing computed from
    the error tells which field is missing. *)
Lemma validate_error_names_no_field :
  let noBucket := mkConfig "" "oss.example.com" "id" "key" in
  let noEndpoint := mkConfig "thanos" "" "id" "key" in
  missingFields noBucket = [FBucket] /\
  missingFields noEndpoint = [FEndpoint] /\
  validate noBucket = validate noEndpoint /\
  ~ (exists names : error -> list Field,
       forall conf e, validate conf = Some e -> names e = missingFields conf).
Proof.
  cbv zeta. repeat split; try reflexivity.
  intros [names H].
  pose proof (H (mkConfig "" "oss.example.com" "id" "key") _ eq_refl) as H1.
  pose proof (H (mkConfig "thanos" "" "id" "key") _ eq_refl) as H2.
  rewrite H1 in H2. discriminate H2.
Qed.

(* ===================================================================== *)
(** ** IsObjNotFoundErr                                                  *)
(* ===================================================================== *)

(** C9 (as the code has it): IsObjNotFoundErr answers true exactly when
    the text of the error contains "StatusCode=404", whatever kind of
    failure the error stands for. *)
Theorem IsObjNotFoundErr_iff (err : error) :
  IsObjNotFoundErr err = true <->
  exists pre post, Error err = pre ++ "StatusCode=404" ++ post.
Proof. unfold IsObjNotFoundErr. apply Contains_iff. Qed.

(** C9, the claim refuted: a transport failure (a dial timeout whose
    text quotes the URL of an object named "StatusCode=404") is
    classified as not-found. *)
Lemma IsObjNotFoundErr_transport_error :
  classOf Synthetic.timeout = Transport /\
  IsObjNotFoundErr Synthetic.timeout = true /\
  ~ (forall err, IsObjNotFoundErr err = true -> classOf err = ObjectNotFound).
Proof.
  repeat split.
  intros H. specialize (H Synthetic.timeout eq_refl). discriminate H.
Qed.

(** Wrapping keeps the classification of a not-found error. *)
Lemma IsObjNotFoundErr_Wrap (err : error) (msg : string) :
  IsObjNotFoundErr err = true -> IsObjNotFoundErr (errors.Wrap err msg) = true.
Proof.
  rewrite !IsObjNotFoundErr_iff. intros (pre & post & H).
  exists (msg ++ ": " ++ pre), post. simpl. rewrite H.
  now rewrite !append_assoc.
Qed.

(* ===================================================================== *)
(** ** getRange, Get, GetRange                                           *)
(* ===================================================================== *)

Lemma int64_pred (a : Z) : int64 (int64 a - 1) = int64 (a - 1).
Proof.
  unfold int64. f_equal.
  replace ((a + 2 ^ 63) mod 2 ^ 64 - 2 ^ 63 - 1 + 2 ^ 63)
    with ((a + 2 ^ 63) mod 2 ^ 64 - 1) by lia.
  rewrite Zminus_mod_idemp_l. f_equal. lia.
Qed.

Lemma int64_id (a : Z) : - 2 ^ 63 <= a < 2 ^ 63 -> int64 a = a.
Proof. intros H. unfold int64. rewrite Z.mod_small; lia. Qed.

Lemma len_zero (name : string) : (len name =? 0)%nat = true <-> name = "".
Proof.
  destruct name; simpl; split; intros H; try reflexivity; discriminate.
Qed.

Section GetRange.

Context {B : Type}.
Variable client : oss.Client B.

(** For a non-empty name, whatever the offset and the length: one
    [GetObject] call with the range [off, off+length-1], and the answer
    of the backend is the answer of the call. *)
Lemma getRange_calls_backend (name : string) (off length : Z) (w : World B) :
  name <> "" ->
  exists r b',
    oss.GetObject client name [oss.Range off (int64 (off + length - 1))] (backend w)
      = (r, b') /\
    getRange client name off length w
      = (r, mkWorld b' (fs w)
              (trace w ++ [CallGetObject name [oss.Range off (int64 (off + length - 1))]])).
Proof.
  intros Hname. unfold getRange.
  destruct (len name =? 0)%nat eqn:E; [apply len_zero in E; contradiction|].
  rewrite int64_pred.
  replace (if negb (length =? -1)
           then [oss.Range off (int64 (off + length - 1))]
           else [oss.Range off (int64 (off + length - 1))])
    with [oss.Range off (int64 (off + length - 1))] by (now destruct (length =? -1)).
  unfold bkt_GetObject.
  destruct (oss.GetObject client name _ (backend w)) as [r b'] eqn:Hg.
  exists r, b'. split; [reflexivity|]. destruct r; reflexivity.
Qed.

(** C10: with an empty object name, Get and GetRange return an error,
    for every offset and length, and the world is the one they were
    given: no SDK call was recorded and the backend is untouched. *)
Theorem empty_name_rejected_locally (off length : Z) (w : World B) :
  GetRange client "" off length w
    = (Err (errors.Errorf "given object name should not empty"), w) /\
  Get client "" w
    = (Err (errors.Errorf "given object name should not empty"), w).
Proof. split; reflexivity. Qed.

(** Get is GetRange at offset 0 and length -1. *)
Lemma Get_is_GetRange (name : string) (w : World B) :
  Get client name w = GetRange client name 0 (-1) w.
Proof. reflexivity. Qed.

(** A positive length asks for the bytes [off, off+length-1] (when that
    sum is an int64). *)
Lemma GetRange_positive_length (name : string) (off length : Z) (w : World B) :
  name <> "" -> 0 <= off -> 0 < length -> off + length - 1 < 2 ^ 63 ->
  exists r w',
    GetRange client name off length w = (r, w') /\
    trace w' = (trace w ++ [CallGetObject name [oss.Range off (off + length - 1)]])%list.
Proof.
  intros Hname Hoff Hlen Hmax.
  destruct (getRange_calls_backend name off length w Hname) as (r & b' & _ & H).
  rewrite int64_id in H by lia.
  eexists _, _. split; [exact H | reflexivity].
Qed.

(** C2, where the code departs from it: Get, that is GetRange at offset
    0 and length -1, does not ask for the entire object.  The request
    it sends carries the range option [0, -2], which line 186 sets
    before the test [length != -1] is made. *)
Theorem Get_sends_a_range (name : string) (w : World B) :
  name <> "" ->
  exists r b',
    oss.GetObject client name [oss.Range 0 (-2)] (backend w) = (r, b') /\
    Get client name w
      = (r, mkWorld b' (fs w) (trace w ++ [CallGetObject name [oss.Range 0 (-2)]])).
Proof.
  intros Hname.
  destruct (getRange_calls_backend name 0 (-1) w Hname) as (r & b' & Hg & H).
  exists r, b'. split; [exact Hg | exact H].
Qed.

(** C3 (as the code has it): for a non-empty name, a length of 0 or
    below -1 is not rejected.  GetRange sends one GetObject request with
    the range [off, off+length-1] (in int64 arithmetic) and returns what
    the backend answers. *)
Theorem GetRange_forwards_any_length (name : string) (off length : Z) (w : World B) :
  name <> "" ->
  length = 0 \/ length < -1 ->
  exists r b',
    oss.GetObject client name [oss.Range off (int64 (off + length - 1))] (backend w)
      = (r, b') /\
    GetRange client name off length w
      = (r, mkWorld b' (fs w)
              (trace w ++ [CallGetObject name [oss.Range off (int64 (off + length - 1))]])).
Proof.
  intros Hname _. apply getRange_calls_backend, Hname.
Qed.

End GetRange.

(** Witness of [Get_sends_a_range]. *)
Lemma Get_sends_a_range_witness :
  exists r b',
    oss.GetObject (Synthetic.client None) "obj" [oss.Range 0 (-2)]
      (backend Synthetic.w0) = (r, b') /\
    Get (Synthetic.client None) "obj" Synthetic.w0
      = (r, mkWorld b' (fs Synthetic.w0)
              (trace Synthetic.w0 ++ [CallGetObject "obj" [oss.Range 0 (-2)]])).
Proof.
  apply (Get_sends_a_range (Synthetic.client None) "obj" Synthetic.w0).
  discriminate.
Defined.

(** The disabled range check would not reject a zero length either: at
    offset 0 it is taken for a suffix range, at offset 1 for an open
    one. *)
Example setRange_zero_length :
  setRange (cos.mkOptions "") 0 (int64 (int64 (0 + 0) - 1))
    = (None, cos.mkOptions "bytes=-1") /\
  setRange (cos.mkOptions "") 1 (int64 (int64 (1 + 0) - 1))
    = (None, cos.mkOptions "bytes=1-").
Proof. split; reflexivity. Qed.

(** Witness of [GetRange_forwards_any_length]: length -5 at offset 3. *)
Lemma GetRange_forwards_any_length_witness :
  exists r b',
    oss.GetObject (Synthetic.client None) "obj" [oss.Range 3 (int64 (3 + -5 - 1))]
      (backend Synthetic.w0) = (r, b') /\
    GetRange (Synthetic.client None) "obj" 3 (-5) Synthetic.w0
      = (r, mkWorld b' (fs Synthetic.w0)
              (trace Synthetic.w0 ++
               [CallGetObject "obj" [oss.Range 3 (int64 (3 + -5 - 1))]])).
Proof.
  apply (GetRange_forwards_any_length (Synthetic.client None) "obj" 3 (-5) Synthetic.w0).
  - discriminate.
  - right. lia.
Defined.

(** C3, the claim refuted: GetRange with length 0 is not rejected.  The
    request reaches the backend, and with a backend that serves it the
    call succeeds. *)
Lemma GetRange_zero_length_reaches_backend :
  GetRange (Synthetic.client None) "obj" 0 0 Synthetic.w0
    = (Ok Synthetic.hello,
       mkWorld (backend Synthetic.w0) (fs Synthetic.w0)
         [CallGetObject "obj" [oss.Range 0 (-1)]]).
Proof. vm_compute. reflexivity. Qed.

(* ===================================================================== *)
(** ** Iter                                                              *)
(* ===================================================================== *)

Lemma visited_app (t u : list Event) : visited (t ++ u) = (visited t ++ visited u)%list.
Proof. unfold visited. apply flat_map_app. Qed.



Lemma visitorAfter_app {S : Type} (f : string -> S -> option error * S)
  (a b : list string) (s : S) :
  visitorAfter f (a ++ b) s = visitorAfter f b (visitorAfter f a s).
Proof. unfold visitorAfter. apply fold_left_app. Qed.

(** A clean list followed by one failed visit splits in one way only
    around a failed visit. *)
Lemma failed_visit_is_last (clean : list Event) (x y : Event) (pre post : list Event) :
  forallb (fun ev => negb (isFailedVisit ev)) clean = true ->
  isFailedVisit y = true ->
  (clean ++ [x] = pre ++ y :: post)%list ->
  post = [] /\ x = y.
Proof.
  revert pre. induction clean as [|a clean IH]; intros pre Hc Hy E.
  - destruct pre as [|p pre]; simpl in E.
    + injection E as -> <-. split; reflexivity.
    + injection E as _ E. destruct pre; discriminate E.
  - simpl in Hc. apply andb_true_iff in Hc as [Ha Hc].
    destruct pre as [|p pre]; simpl in E.
    + injection E as -> _. rewrite Hy in Ha. discriminate Ha.
    + injection E as _ E. exact (IH pre Hc Hy E).
Qed.

Lemma failed_visit_not_in_clean (clean : list Event) (y : Event) (pre post : list Event) :
  forallb (fun ev => negb (isFailedVisit ev)) clean = true ->
  isFailedVisit y = true ->
  clean <> (pre ++ y :: post)%list.
Proof.
  intros Hc Hy ->. rewrite forallb_app in Hc.
  apply andb_true_iff in Hc as [_ Hc]. simpl in Hc.
  rewrite Hy in Hc. discriminate Hc.
Qed.

Section IterFacts.

Context {B S : Type}.
Variable client : oss.Client B.
Variable f : string -> S -> option error * S.

(** The visit loop over one page, when the visitor accepts every
    name. *)
Lemma visitAll_accepts (names : list string) (s : S) (w : World B) :
  (forall name s', In name names -> fst (f name s') = None) ->
  visitAll f names s w
    = (None, visitorAfter f names s,
       mkWorld (backend w) (fs w)
         (trace w ++ map (fun n => Visit n None) names)).
Proof.
  revert s w. induction names as [|n names IH]; intros s w Hok; simpl.
  - rewrite app_nil_r. now destruct w.
  - pose proof (Hok n s (or_introl eq_refl)) as Hn.
    destruct (f n s) as [err s1] eqn:Hf. simpl in Hn. subst err.
    rewrite IH by (intros; apply Hok; now right).
    cbn [backend fs trace snd]. rewrite <- app_assoc. reflexivity.
Qed.

(** The visit loop in general: it leaves the backend and the files
    alone and records visits only, of which at most the last failed. *)
Lemma visitAll_trace (names : list string) (s : S) (w : World B) :
  exists new,
    trace (snd (visitAll f names s w)) = (trace w ++ new)%list /\
    backend (snd (visitAll f names s w)) = backend w /\
    forallb (fun ev => negb (isCall ev)) new = true /\
    match fst (fst (visitAll f names s w)) with
    | None => forallb (fun ev => negb (isFailedVisit ev)) new = true
    | Some e =>
        exists pre name,
          new = (pre ++ [Visit name (Some e)])%list /\
          forallb (fun ev => negb (isFailedVisit ev)) pre = true
    end.
Proof.
  revert s w. induction names as [|n names IH]; intros s w; simpl.
  - exists []. rewrite app_nil_r. repeat split.
  - destruct (f n s) as [[e|] s1] eqn:Hf.
    + exists [Visit n (Some e)]. repeat split.
      exists [], n. split; reflexivity.
    + destruct (IH s1 (mkWorld (backend w) (fs w) (trace w ++ [Visit n None])))
        as (new & Ht & Hb & Hv & Hnew).
      exists (Visit n None :: new). cbn [trace backend] in Ht, Hb.
      rewrite Ht, Hb, <- app_assoc. repeat split; [exact Hv|].
      destruct (fst (fst (visitAll f names s1 _))) as [e|].
      * destruct Hnew as (pre & name & -> & Hpre).
        exists (Visit n None :: pre), name. split; [reflexivity | exact Hpre].
      * simpl. exact Hnew.
Qed.

(** The loop along a chain of pages, with a visitor that accepts every
    name on them. *)
Lemma iterLoop_chain (dir marker : string) (b b' : B)
  (pages : list oss.ListObjectsResult) :
  pageChain client dir marker b pages b' ->
  (forall name s, In name (flat_map listNamesOf pages) -> fst (f name s) = None) ->
  forall (fuel : nat) (s : S) (files : FS) (t : list Event),
    (length pages <= fuel)%nat ->
    iterLoop client f fuel dir marker s (mkWorld b files t)
      = (Return None,
         visitorAfter f (flat_map listNamesOf pages) s,
         mkWorld b' files (t ++ chainTrace dir marker pages)).
Proof.
  induction 1 as [marker b lor b' Hcall Hlast
                 |marker b lor b' rest b'' Hcall Hmore Hrest IH];
    intros Hok fuel s files t Hfuel;
    (destruct fuel as [|fuel]; [simpl in Hfuel; lia|]);
    simpl iterLoop; unfold bkt_ListObjects; cbn [backend fs trace];
    rewrite Hcall; rewrite visitAll_accepts
      by (intros; apply Hok; simpl; apply in_or_app; now left).
  - rewrite Hlast. cbn [negb backend fs trace]. simpl flat_map. simpl chainTrace.
    rewrite !app_nil_r. rewrite <- app_assoc. reflexivity.
  - rewrite Hmore. cbn [negb backend fs trace].
    rewrite IH.
    + simpl flat_map. rewrite visitorAfter_app. simpl chainTrace.
      rewrite <- !app_assoc. reflexivity.
    + intros; apply Hok; simpl; apply in_or_app; now right.
    + simpl in Hfuel. lia.
Qed.

(** The loop in general: what it records stops at a failed visit. *)
Lemma iterLoop_stops (fuel : nat) (dir marker : string) (s : S) (w : World B) :
  exists new,
    trace (snd (iterLoop client f fuel dir marker s w)) = (trace w ++ new)%list /\
    stopsAtFailure (fst (fst (iterLoop client f fuel dir marker s w))) new.
Proof.
  revert marker s w. induction fuel as [|fuel IH]; intros marker s w.
  - exists []. simpl. rewrite app_nil_r. split; [reflexivity | now left].
  - simpl iterLoop. unfold bkt_ListObjects.
    destruct (oss.ListObjects client (listOptions dir marker) (backend w))
      as [[lor|err] b1] eqn:Hcall.
    2:{ exists [CallListObjects (listOptions dir marker)].
        split; [reflexivity | now left]. }
    set (w1 := mkWorld b1 (fs w) (trace w ++ [CallListObjects (listOptions dir marker)])).
    destruct (visitAll_trace (listNamesOf lor) s w1) as (vs & Ht & _ & Hvisits & Hvs).
    destruct (visitAll f (listNamesOf lor) s w1) as [[[e|] s2] w2] eqn:Hv;
      cbn [fst snd] in Ht, Hvs.
    + destruct Hvs as (pre & name & -> & Hpre).
      exists (CallListObjects (listOptions dir marker) :: pre ++ [Visit name (Some e)])%list.
      cbn [fst snd]. split.
      * rewrite Ht. unfold w1. cbn [trace]. now rewrite <- app_assoc.
      * right. exists (CallListObjects (listOptions dir marker) :: pre), name, e.
        repeat split. exact Hpre.
    + destruct (oss.IsTruncated lor); cbn [negb].
      * destruct (IH (oss.NextMarker lor) s2 w2) as (new & Ht' & Hnew).
        exists ((CallListObjects (listOptions dir marker) :: vs) ++ new)%list.
        split.
        -- rewrite Ht', Ht. unfold w1. cbn [trace].
           rewrite <- !app_assoc. reflexivity.
        -- destruct Hnew as [Hclean | (pre & name & e & -> & Hpre & Hr)].
           ++ left. rewrite forallb_app. simpl. now rewrite Hvs, Hclean.
           ++ right.
              exists ((CallListObjects (listOptions dir marker) :: vs) ++ pre)%list, name, e.
              repeat split.
              ** now rewrite <- app_assoc.
              ** rewrite forallb_app. simpl. now rewrite Hvs, Hpre.
              ** exact Hr.
      * exists (CallListObjects (listOptions dir marker) :: vs).
        cbn [fst snd]. split.
        -- rewrite Ht. unfold w1. cbn [trace]. now rewrite <- app_assoc.
        -- left. simpl. exact Hvs.
Qed.

(** Every request the loop records is a listing request for [dir] with
    the delimiter and page size of the source. *)
Lemma iterLoop_requests (fuel : nat) (dir marker : string) (s : S) (w : World B) :
  exists new,
    trace (snd (iterLoop client f fuel dir marker s w)) = (trace w ++ new)%list /\
    Forall (fun ev =>
              isCall ev = true ->
              exists m, ev = CallListObjects
                               [oss.MaxKeys 1000; oss.Marker m; oss.Prefix dir;
                                oss.Delimiter "/"]) new.
Proof.
  revert marker s w. induction fuel as [|fuel IH]; intros marker s w.
  - exists []. simpl. rewrite app_nil_r. split; [reflexivity | constructor].
  - simpl iterLoop. unfold bkt_ListObjects.
    destruct (oss.ListObjects client (listOptions dir marker) (backend w))
      as [[lor|err] b1] eqn:Hcall.
    2:{ exists [CallListObjects (listOptions dir marker)].
        split; [reflexivity|]. constructor; [|constructor].
        intros _. now exists marker. }
    set (w1 := mkWorld b1 (fs w) (trace w ++ [CallListObjects (listOptions dir marker)])).
    destruct (visitAll_trace (listNamesOf lor) s w1) as (vs & Ht & _ & Hvisits & Hvs).
    assert (Hpage : Forall (fun ev =>
              isCall ev = true ->
              exists m, ev = CallListObjects
                               [oss.MaxKeys 1000; oss.Marker m; oss.Prefix dir;
                                oss.Delimiter "/"])
              (CallListObjects (listOptions dir marker) :: vs)).
    { constructor; [intros _; now exists marker|].
      apply List.Forall_forall. intros ev Hin Hcall'.
      rewrite forallb_forall in Hvisits. specialize (Hvisits ev Hin).
      rewrite Hcall' in Hvisits. discriminate Hvisits. }
    destruct (visitAll f (listNamesOf lor) s w1) as [[[e|] s2] w2] eqn:Hv;
      cbn [fst snd] in Ht.
    + exists (CallListObjects (listOptions dir marker) :: vs). cbn [fst snd].
      split; [|exact Hpage].
      rewrite Ht. unfold w1. cbn [trace]. now rewrite <- app_assoc.
    + destruct (oss.IsTruncated lor); cbn [negb].
      * destruct (IH (oss.NextMarker lor) s2 w2) as (new & Ht' & Hnew).
        exists ((CallListObjects (listOptions dir marker) :: vs) ++ new)%list.
        split.
        -- rewrite Ht', Ht. unfold w1. cbn [trace].
           rewrite <- !app_assoc. reflexivity.
        -- apply Forall_app. split; [exact Hpage | exact Hnew].
      * exists (CallListObjects (listOptions dir marker) :: vs). cbn [fst snd].
        split; [|exact Hpage].
        rewrite Ht. unfold w1. cbn [trace]. now rewrite <- app_assoc.
Qed.


(** The visits a run recorded are the invocations of the visitor: the
    state it is left in is the state after the recorded names, and the
    recorded answers are its answers. *)
Lemma visitAll_log (names : list string) (s : S) (w : World B) :
  exists new,
    trace (snd (visitAll f names s w)) = (trace w ++ new)%list /\
    snd (fst (visitAll f names s w)) = visitorAfter f (visited new) s /\
    answered f s new.
Proof.
  revert s w. induction names as [|n names IH]; intros s w; simpl.
  - exists []. rewrite app_nil_r. repeat split.
  - destruct (f n s) as [[e|] s1] eqn:Hf.
    + exists [Visit n (Some e)]. cbn [fst snd trace]. split; [reflexivity|].
      unfold visitorAfter. simpl. rewrite Hf. repeat split.
    + destruct (IH s1 (mkWorld (backend w) (fs w) (trace w ++ [Visit n None])))
        as (new & Ht & Hs & Ha).
      exists (Visit n None :: new). cbn [trace] in Ht.
      rewrite Ht, Hs, <- app_assoc. split; [reflexivity|].
      unfold visitorAfter. simpl. rewrite Hf. repeat split. exact Ha.
Qed.

Lemma answered_app (s : S) (l1 l2 : list Event) :
  answered f s l1 ->
  answered f (visitorAfter f (visited l1) s) l2 ->
  answered f s (l1 ++ l2).
Proof.
  revert s. induction l1 as [|ev l1 IH]; intros s H1 H2; [exact H2|].
  destruct ev as [o|n o|n pth ps|n a]; simpl in *; try (apply IH; assumption).
  destruct H1 as [Ha H1]. split; [exact Ha|]. apply IH; assumption.
Qed.

Lemma answered_at (s : S) (pre post : list Event) (n : string) (a : option error) :
  answered f s (pre ++ Visit n a :: post) ->
  a = fst (f n (visitorAfter f (visited pre) s)).
Proof.
  revert s. induction pre as [|ev pre IH]; intros s H.
  - simpl in H. exact (proj1 H).
  - destruct ev as [o|m o|m pth ps|m b]; simpl in *; try (apply IH; assumption).
    apply IH. exact (proj2 H).
Qed.

Lemma iterLoop_log (fuel : nat) (dir marker : string) (s : S) (w : World B) :
  exists new,
    trace (snd (iterLoop client f fuel dir marker s w)) = (trace w ++ new)%list /\
    snd (fst (iterLoop client f fuel dir marker s w))
      = visitorAfter f (visited new) s /\
    answered f s new.
Proof.
  revert marker s w. induction fuel as [|fuel IH]; intros marker s w.
  - exists []. simpl. rewrite app_nil_r. repeat split.
  - simpl iterLoop. unfold bkt_ListObjects.
    destruct (oss.ListObjects client (listOptions dir marker) (backend w))
      as [[lor|err] b1] eqn:Hcall.
    2:{ exists [CallListObjects (listOptions dir marker)]. repeat split. }
    set (w1 := mkWorld b1 (fs w) (trace w ++ [CallListObjects (listOptions dir marker)])).
    destruct (visitAll_log (listNamesOf lor) s w1) as (vs & Ht & Hs & Ha).
    destruct (visitAll f (listNamesOf lor) s w1) as [[[e|] s2] w2] eqn:Hv;
      cbn [fst snd] in Ht, Hs.
    + exists (CallListObjects (listOptions dir marker) :: vs). cbn [fst snd].
      rewrite Ht. unfold w1. cbn [trace]. rewrite <- app_assoc.
      repeat split; assumption.
    + destruct (oss.IsTruncated lor); cbn [negb].
      * destruct (IH (oss.NextMarker lor) s2 w2) as (new & Ht' & Hs' & Ha').
        exists ((CallListObjects (listOptions dir marker) :: vs) ++ new)%list.
        rewrite Ht', Ht, Hs'. unfold w1. cbn [trace].
        rewrite <- !app_assoc. split; [reflexivity|]. split.
        -- rewrite Hs. rewrite visited_app. simpl visited at 2.
           now rewrite visitorAfter_app.
        -- apply (answered_app s (CallListObjects (listOptions dir marker) :: vs) new).
           ++ exact Ha.
           ++ simpl visited. rewrite <- Hs. exact Ha'.
      * exists (CallListObjects (listOptions dir marker) :: vs). cbn [fst snd].
        rewrite Ht. unfold w1. cbn [trace]. rewrite <- app_assoc.
        repeat split; assumption.
Qed.

(** C7: if the visitor answers an error on some entry, that visit is the
    last event of the run (no further visit, no further request), Iter
    returns that very error, which is the answer of the visitor on that
    entry, and the visitor is left in the state of that invocation: it
    was invoked on the entries recorded before, then on that entry, and
    not again. *)
Theorem visitor_error_stops_Iter (fuel : nat) (dir : string) (s : S) (w : World B)
  (pre post : list Event) (name : string) (e : error) :
  trace (snd (Iter client f fuel dir s w))
    = (trace w ++ pre ++ Visit name (Some e) :: post)%list ->
  post = [] /\
  fst (fst (Iter client f fuel dir s w)) = Return (Some e) /\
  fst (f name (visitorAfter f (visited pre) s)) = Some e /\
  snd (fst (Iter client f fuel dir s w))
    = snd (f name (visitorAfter f (visited pre) s)).
Proof.
  unfold Iter. intros Ht.
  destruct (iterLoop_stops fuel (iterDir dir) "" s w) as (new & Hnew & Hstop).
  destruct (iterLoop_log fuel (iterDir dir) "" s w) as (new' & Hnew' & Hstate & Hans).
  rewrite Hnew in Hnew'. apply app_inv_head in Hnew'. subst new'.
  rewrite Hnew in Ht. apply app_inv_head in Ht.
  assert (Hpost : post = [] /\
                  fst (fst (iterLoop client f fuel (iterDir dir) "" s w))
                  = Return (Some e)).
  { destruct Hstop as [Hclean | (pre' & name' & e' & Hlast & Hpre & Hr)].
    - exfalso.
      exact (failed_visit_not_in_clean new (Visit name (Some e)) pre post
               Hclean eq_refl Ht).
    - rewrite Hlast in Ht.
      destruct (failed_visit_is_last pre' (Visit name' (Some e'))
                  (Visit name (Some e)) pre post Hpre eq_refl Ht) as [Hpost Heq].
      injection Heq as _ ->. split; [exact Hpost | exact Hr]. }
  destruct Hpost as [-> Hret]. subst new.
  split; [reflexivity|]. split; [exact Hret|]. split.
  - symmetry. exact (answered_at s pre [] name (Some e) Hans).
  - rewrite Hstate, visited_app, visitorAfter_app. reflexivity.
Qed.

Lemma iterDir_nonempty (dir : string) :
  dir <> "" -> iterDir dir = TrimSuffix dir dirDelim ++ dirDelim.
Proof.
  intros H. unfold iterDir.
  destruct (String.eqb_spec dir "") as [E|E]; [contradiction | reflexivity].
Qed.

(** A non-empty [dir] without the trailing delimiter runs as [dir] with
    it. *)
Lemma Iter_trailing_delimiter (fuel : nat) (dir : string) (s : S) (w : World B) :
  dir <> "" -> HasSuffix dir dirDelim = false ->
  iterDir dir = dir ++ dirDelim /\
  Iter client f fuel dir s w = Iter client f fuel (dir ++ dirDelim) s w.
Proof.
  intros H Hs.
  assert (H1 : iterDir dir = dir ++ dirDelim).
  { rewrite (iterDir_nonempty _ H). now rewrite TrimSuffix_other. }
  assert (H2 : iterDir (dir ++ dirDelim) = dir ++ dirDelim).
  { rewrite iterDir_nonempty.
    - now rewrite TrimSuffix_append.
    - destruct dir; [contradiction | discriminate]. }
  split; [exact H1|]. unfold Iter. now rewrite H1, H2.
Qed.

(** A chain of pages starts with the request at its first cursor. *)
Lemma chainTrace_head (dir marker : string) (b b' : B)
  (pages : list oss.ListObjectsResult) :
  pageChain client dir marker b pages b' ->
  exists rest,
    chainTrace dir marker pages = CallListObjects (listOptions dir marker) :: rest.
Proof. intros H. destruct H; eexists; reflexivity. Qed.

(** The value of [dir] after lines 150-152, spelled out. *)
Lemma iterDir_normal (dir : string) :
  iterDir dir
  = if String.eqb dir "" then ""
    else if HasSuffix dir "/" then dir else dir ++ "/".
Proof.
  destruct (String.eqb_spec dir "") as [->|Hne]; [reflexivity|].
  rewrite (iterDir_nonempty dir Hne). unfold dirDelim.
  destruct (HasSuffix dir "/") eqn:Hs.
  - apply HasSuffix_iff in Hs as [a ->]. now rewrite TrimSuffix_append.
  - now rewrite TrimSuffix_other.
Qed.

(** C6: Iter lists with the normalised prefix: the empty prefix for the
    empty [dir] (the bucket root), [dir] itself when it ends with the
    delimiter, and [dir] with the delimiter added otherwise.  When the
    backend serves a chain of pages for that prefix, Iter requests and
    visits exactly these pages, the first request being the one for
    that prefix at the empty cursor; so the prefix sent ends with the
    delimiter unless [dir] is empty, and a [dir] without the trailing
    delimiter runs as [dir] with it. *)
Theorem Iter_normalises_prefix (fuel : nat) (dir : string) (s : S) (w : World B)
  (pages : list oss.ListObjectsResult) (b' : B) :
  let prefix :=
    if String.eqb dir "" then ""
    else if HasSuffix dir "/" then dir else dir ++ "/" in
  pageChain client prefix "" (backend w) pages b' ->
  (forall name s', In name (flat_map listNamesOf pages) -> fst (f name s') = None) ->
  (length pages <= fuel)%nat ->
  Iter client f fuel dir s w
    = (Return None,
       visitorAfter f (flat_map listNamesOf pages) s,
       mkWorld b' (fs w) (trace w ++ chainTrace prefix "" pages)) /\
  (exists rest,
     chainTrace prefix "" pages
     = CallListObjects [oss.MaxKeys 1000; oss.Marker ""; oss.Prefix prefix;
                        oss.Delimiter "/"] :: rest) /\
  (dir = "" -> prefix = "") /\
  (dir <> "" -> HasSuffix prefix "/" = true) /\
  (dir <> "" -> HasSuffix dir "/" = false ->
   Iter client f fuel (dir ++ "/") s w = Iter client f fuel dir s w).
Proof.
  intros prefix Hchain Hok Hfuel.
  assert (Hdir : iterDir dir = prefix) by apply iterDir_normal.
  split; [|split; [|split; [|split]]].
  - unfold Iter. rewrite Hdir. destruct w as [b files t].
    cbn [backend fs trace] in *.
    exact (iterLoop_chain _ _ _ _ _ Hchain Hok fuel s files t Hfuel).
  - exact (chainTrace_head _ _ _ _ _ Hchain).
  - intros ->. reflexivity.
  - intros Hne. rewrite <- Hdir, (iterDir_nonempty dir Hne).
    apply HasSuffix_iff. now eexists.
  - intros Hne Hs. symmetry.
    exact (proj2 (Iter_trailing_delimiter fuel dir s w Hne Hs)).
Qed.

End IterFacts.

(** Iter on "a" and on "a/" are the same run. *)
Lemma Iter_a_slash {B S : Type} (client : oss.Client B)
  (f : string -> S -> option error * S) (fuel : nat) (s : S) (w : World B) :
  Iter client f fuel "a" s w = Iter client f fuel "a/" s w.
Proof.
  apply (Iter_trailing_delimiter client f fuel "a" s w); [discriminate | reflexivity].
Qed.


(** Witness of [visitor_error_stops_Iter]: the visitor refuses the
    second entry of the first page; the third is not visited. *)
Lemma visitor_error_stops_Iter_witness :
  @nil Event = [] /\
  fst (fst (Iter (Synthetic.client None) (Synthetic.recorder "a/2") 5 "a" []
              Synthetic.w0))
    = Return (Some Synthetic.stop) /\
  fst (Synthetic.recorder "a/2" "a/2" ["a/1"]) = Some Synthetic.stop /\
  snd (fst (Iter (Synthetic.client None) (Synthetic.recorder "a/2") 5 "a" []
              Synthetic.w0))
    = ["a/1"; "a/2"].
Proof.
  apply (visitor_error_stops_Iter (Synthetic.client None) (Synthetic.recorder "a/2")
           5 "a" [] Synthetic.w0
           [CallListObjects (listOptions "a/" ""); Visit "a/1" None]
           [] "a/2" Synthetic.stop).
  vm_compute. reflexivity.
Defined.

(** Witness of [Iter_normalises_prefix]: "a" is listed as "a/". *)
Lemma Iter_normalises_prefix_witness :
  Iter (Synthetic.client None) (Synthetic.recorder "none") 3 "a" [] Synthetic.w0
    = (Return None,
       visitorAfter (Synthetic.recorder "none")
         (flat_map listNamesOf [Synthetic.page1; Synthetic.page2; Synthetic.page3]) [],
       mkWorld (backend Synthetic.w0) (fs Synthetic.w0)
         (trace Synthetic.w0
          ++ chainTrace "a/" "" [Synthetic.page1; Synthetic.page2; Synthetic.page3])) /\
  (exists rest,
     chainTrace "a/" "" [Synthetic.page1; Synthetic.page2; Synthetic.page3]
     = CallListObjects [oss.MaxKeys 1000; oss.Marker ""; oss.Prefix "a/";
                        oss.Delimiter "/"] :: rest) /\
  ("a" = "" -> "a/" = "") /\
  ("a" <> "" -> HasSuffix "a/" "/" = true) /\
  ("a" <> "" -> HasSuffix "a" "/" = false ->
   Iter (Synthetic.client None) (Synthetic.recorder "none") 3 ("a" ++ "/") []
     Synthetic.w0
   = Iter (Synthetic.client None) (Synthetic.recorder "none") 3 "a" [] Synthetic.w0).
Proof.
  apply (Iter_normalises_prefix (Synthetic.client None) (Synthetic.recorder "none")
           3 "a" [] Synthetic.w0
           [Synthetic.page1; Synthetic.page2; Synthetic.page3]
           (backend Synthetic.w0)).
  - apply chain_more with (b' := backend Synthetic.w0); [reflexivity | reflexivity |].
    apply chain_more with (b' := backend Synthetic.w0); [reflexivity | reflexivity |].
    apply chain_last; reflexivity.
  - intros name s' Hin. simpl in Hin.
    repeat (destruct Hin as [<- | Hin]; [reflexivity|]). contradiction.
  - simpl. lia.
Defined.

(** The empty prefix is sent as it is: the root of the bucket is
    listed. *)
Example Iter_lists_the_root :
  Iter (Synthetic.client None) (Synthetic.recorder "none") 3 "" [] Synthetic.w0
    = (Return None, [],
       mkWorld (backend Synthetic.w0) (fs Synthetic.w0)
         [CallListObjects [oss.MaxKeys 1000; oss.Marker ""; oss.Prefix "";
                           oss.Delimiter "/"]]).
Proof. vm_compute. reflexivity. Qed.

(** The run of that witness in full: two entries accepted, the third
    refused, nothing after it, and the second page never requested. *)
Example Iter_stops_at_third_entry :
  Iter (Synthetic.client None) (Synthetic.recorder "a/x/") 5 "a" [] Synthetic.w0
    = (Return (Some Synthetic.stop),
       ["a/1"; "a/2"; "a/x/"],
       mkWorld (backend Synthetic.w0) (fs Synthetic.w0)
         [CallListObjects (listOptions "a/" "");
          Visit "a/1" None; Visit "a/2" None;
          Visit "a/x/" (Some Synthetic.stop)]).
Proof. vm_compute. reflexivity. Qed.

(* ===================================================================== *)
(** ** Upload                                                            *)
(* ===================================================================== *)

(** Rewrites the backend call of the goal with what is known of it. *)
Ltac use_upload Hup :=
  match type of Hup with
  | ?call = _ =>
      match goal with
      | |- context [oss.UploadFile ?a ?b ?c ?d ?e ?f] =>
          change (oss.UploadFile a b c d e f) with call
      end
  end;
  rewrite Hup.

Section UploadFacts.

Context {B : Type}.
Variable client : oss.Client B.
Variable local : LocalOS.

Lemma bytesOf_cons (a : bytes * option error) (pre : Reader) :
  bytesOf (a :: pre) = (fst a ++ bytesOf pre)%list.
Proof. reflexivity. Qed.

(** *** The scratch file and the buffered writer *)

Lemma staged_staged (w : World B) (d1 d2 : bytes) :
  staged (staged w d1) d2 = staged w d2.
Proof. unfold staged. cbn [backend fs trace]. now rewrite insert_insert_eq. Qed.

Lemma created_staged (w : World B) : created w = staged w [].
Proof. reflexivity. Qed.

Lemma contentOf_staged (w : World B) (d : bytes) :
  contentOf "/tmp/thanos.tmp" (staged w d) = d.
Proof.
  unfold contentOf, staged, tmpFilename. cbn [fs]. now rewrite lookup_insert_eq.
Qed.

Lemma fo_Write_staged (w : World B) (d p : bytes) :
  fo_Write "/tmp/thanos.tmp" p (staged w d) = staged w (d ++ p)%list.
Proof.
  unfold fo_Write. rewrite contentOf_staged.
  unfold staged, tmpFilename. cbn [backend fs trace]. now rewrite insert_insert_eq.
Qed.

(** A write loses no byte and reorders none: file and buffer together
    hold what they held, and the chunk after it. *)
Lemma bufioWrite_total (disk buf p : bytes) :
  (fst (bufioWrite disk buf p) ++ snd (bufioWrite disk buf p)
   = disk ++ buf ++ p)%list.
Proof.
  unfold bufioWrite.
  destruct (length p <=? defaultBufSize - length buf)%nat; [reflexivity|].
  destruct (length buf =? 0)%nat eqn:Hb.
  - apply Nat.eqb_eq, nil_length_inv in Hb. subst buf. cbn [fst snd].
    now rewrite app_nil_r.
  - destruct (length (skipn (defaultBufSize - length buf) p) <=? defaultBufSize)%nat;
      cbn [fst snd]; rewrite ?app_nil_r, <- ?app_assoc;
      now rewrite firstn_skipn.
Qed.

Lemma stagedFrom_total (disk buf : bytes) (pre : Reader) :
  (fst (stagedFrom disk buf pre) ++ snd (stagedFrom disk buf pre)
   = disk ++ buf ++ bytesOf pre)%list.
Proof.
  revert disk buf. induction pre as [|[chunk err] pre IH]; intros disk buf.
  - simpl. unfold bytesOf. simpl. now rewrite app_nil_r.
  - cbn [stagedFrom]. rewrite IH, bytesOf_cons. cbn [fst].
    rewrite !app_assoc. f_equal. rewrite <- app_assoc. apply bufioWrite_total.
Qed.

Lemma onDisk_inBuffer (pre : Reader) :
  (onDisk pre ++ inBuffer pre)%list = bytesOf pre.
Proof. unfold onDisk, inBuffer. now rewrite stagedFrom_total. Qed.

(** [w.Write] when the write it may make does not fail. *)
Lemma w_Write_ok (w : World B) (disk buf p : bytes) :
  ((defaultBufSize - length buf < length p)%nat ->
   write_fails local (disk ++ buf)%list p = None) ->
  w_Write local "/tmp/thanos.tmp" buf p (staged w disk)
    = (Normal (snd (bufioWrite disk buf p), None),
       staged w (fst (bufioWrite disk buf p))).
Proof.
  intros Hok. unfold w_Write, bufioWrite.
  destruct (Nat.leb_spec (length p) (defaultBufSize - length buf)) as [Hfit|Hfit];
    [reflexivity|].
  rewrite contentOf_staged, (Hok Hfit).
  destruct (length buf =? 0)%nat.
  - now rewrite fo_Write_staged.
  - rewrite !fo_Write_staged.
    destruct (length (skipn (defaultBufSize - length buf) p) <=? defaultBufSize)%nat;
      reflexivity.
Qed.

(** [w.Write] when the write it makes fails. *)
Lemma w_Write_refused (w : World B) (disk buf p : bytes) (e : error) :
  (defaultBufSize - length buf < length p)%nat ->
  write_fails local (disk ++ buf)%list p = Some e ->
  w_Write local "/tmp/thanos.tmp" buf p (staged w disk)
    = (Normal (buf, Some e), staged w disk).
Proof.
  intros Hfit Hf. unfold w_Write.
  destruct (Nat.leb_spec (length p) (defaultBufSize - length buf)) as [H|_]; [lia|].
  now rewrite contentOf_staged, Hf.
Qed.

(** *** The monad *)

Lemma bind_normal {St A C : Type} (m : Go St A) (k : A -> Go St C)
  (s s' : St) (a : A) :
  m s = (Normal a, s') -> bind m k s = k a s'.
Proof. unfold bind. now intros ->. Qed.

Lemma bind_panicking {St A C : Type} (m : Go St A) (k : A -> Go St C)
  (s s' : St) (v : error) :
  m s = (Panicking v, s') -> bind m k s = (Panicking v, s').
Proof. unfold bind. now intros ->. Qed.

Lemma bind_ext {St A C : Type} (m1 m2 : Go St A) (k : A -> Go St C) (s : St) :
  m1 s = m2 s -> bind m1 k s = bind m2 k s.
Proof. unfold bind. now intros ->. Qed.

(** *** The copy loop *)

(** One round of the loop on a chunk that is written. *)
Lemma copyLoop_round (chunk : bytes) (err : option error) (r : Reader)
  (buf : bytes) (w : World B) :
  goesOn (chunk, err) = true ->
  copyLoop local "/tmp/thanos.tmp" ((chunk, err) :: r) buf w
    = bind (w_Write local "/tmp/thanos.tmp" buf chunk)
        (fun bw => match snd bw with
                   | Some e' => panic e'
                   | None => copyLoop local "/tmp/thanos.tmp" r (fst bw)
                   end) w.
Proof.
  unfold goesOn. cbn [fst snd]. intros H.
  apply andb_true_iff in H as [Hn He]. apply negb_true_iff in Hn.
  cbn [copyLoop]. rewrite Hn.
  destruct err as [e|]; [rewrite He|]; reflexivity.
Qed.

(** While the answers carry bytes and the writes succeed, the loop goes
    round; file and buffer follow [stagedFrom]. *)
Lemma copyLoop_goes_on (pre rest : Reader) (disk buf : bytes) (w : World B) :
  forallb goesOn pre = true ->
  writesOk local (disk ++ buf)%list pre = true ->
  copyLoop local "/tmp/thanos.tmp" (pre ++ rest)%list buf (staged w disk)
    = copyLoop local "/tmp/thanos.tmp" rest (snd (stagedFrom disk buf pre))
        (staged w (fst (stagedFrom disk buf pre))).
Proof.
  revert disk buf. induction pre as [|[chunk err] pre IH]; intros disk buf Hgo Hw.
  - reflexivity.
  - simpl in Hgo. apply andb_true_iff in Hgo as [Ha Hgo].
    simpl in Hw.
    destruct (write_fails local (disk ++ buf)%list chunk) eqn:Hwf; [discriminate|].
    rewrite <- app_comm_cons, (copyLoop_round _ _ _ _ _ Ha).
    rewrite (bind_normal _ _ _ _ _ (w_Write_ok w disk buf chunk (fun _ => Hwf))).
    cbn [fst snd stagedFrom]. apply IH; [exact Hgo|].
    rewrite bufioWrite_total, app_assoc. exact Hw.
Qed.

Lemma copyLoop_breaks (rest : Reader) (buf : bytes) (w : World B) :
  breaksAt rest = true ->
  copyLoop local "/tmp/thanos.tmp" rest buf w = (Normal buf, w).
Proof.
  destruct rest as [|[chunk err] rest]; [reflexivity|].
  simpl. intros H. apply andb_true_iff in H as [Hn He]. rewrite Hn.
  destruct err as [e|]; [rewrite He|]; reflexivity.
Qed.

Lemma copyLoop_read_error (chunk : bytes) (e : error) (post : Reader)
  (buf : bytes) (w : World B) :
  e <> EOF ->
  copyLoop local "/tmp/thanos.tmp" ((chunk, Some e) :: post) buf w = (Panicking e, w).
Proof.
  intros He. simpl. rewrite bool_decide_eq_false_2 by exact He. reflexivity.
Qed.

Lemma copyLoop_write_error (chunk : bytes) (err : option error) (e' : error)
  (post : Reader) (disk buf : bytes) (w : World B) :
  goesOn (chunk, err) = true ->
  (defaultBufSize - length buf < length chunk)%nat ->
  write_fails local (disk ++ buf)%list chunk = Some e' ->
  copyLoop local "/tmp/thanos.tmp" ((chunk, err) :: post) buf (staged w disk)
    = (Panicking e', staged w disk).
Proof.
  intros Ha Hfit Hwf. rewrite (copyLoop_round _ _ _ _ _ Ha).
  now rewrite (bind_normal _ _ _ _ _ (w_Write_refused w disk buf chunk e' Hfit Hwf)).
Qed.

(** Answers after the one at which the loop breaks are not read. *)
Lemma copyLoop_cut (pre rest : Reader) (buf : bytes) (w : World B) :
  forallb goesOn pre = true ->
  breaksAt rest = true ->
  copyLoop local "/tmp/thanos.tmp" (pre ++ rest)%list buf w
    = copyLoop local "/tmp/thanos.tmp" pre buf w.
Proof.
  revert buf w. induction pre as [|[chunk err] pre IH]; intros buf w Hgo Hbr.
  - simpl app. now rewrite copyLoop_breaks.
  - simpl in Hgo. apply andb_true_iff in Hgo as [Ha Hgo].
    rewrite <- app_comm_cons, !(copyLoop_round _ _ _ _ _ Ha).
    unfold bind.
    destruct (w_Write local "/tmp/thanos.tmp" buf chunk w) as [[bw|v] w']; [|reflexivity].
    destruct (snd bw); [reflexivity|]. now apply IH.
Qed.

(** The loop touches nothing but the scratch file. *)
Lemma copyLoop_shape (r : Reader) (buf disk : bytes) (w : World B) :
  exists disk',
    snd (copyLoop local "/tmp/thanos.tmp" r buf (staged w disk)) = staged w disk'.
Proof.
  revert buf disk. induction r as [|[chunk err] r IH]; intros buf disk.
  - exists disk. reflexivity.
  - destruct (goesOn (chunk, err)) eqn:Ha.
    + rewrite (copyLoop_round _ _ _ _ _ Ha).
      destruct (Nat.leb_spec (length chunk) (defaultBufSize - length buf)) as [Hfit|Hfit].
      * rewrite (bind_normal _ _ _ _ _
                   (w_Write_ok w disk buf chunk ltac:(intros; lia))).
        cbn [snd fst]. apply IH.
      * destruct (write_fails local (disk ++ buf)%list chunk) as [e|] eqn:Hwf.
        -- rewrite (bind_normal _ _ _ _ _ (w_Write_refused w disk buf chunk e Hfit Hwf)).
           exists disk. reflexivity.
        -- rewrite (bind_normal _ _ _ _ _ (w_Write_ok w disk buf chunk (fun _ => Hwf))).
           cbn [snd fst]. apply IH.
    + exists disk. cbn [copyLoop]. unfold goesOn in Ha. cbn [fst snd] in Ha.
      destruct (length chunk =? 0)%nat; cbn [negb andb] in Ha.
      * destruct err as [e|]; [destruct (bool_decide (e = EOF))|]; reflexivity.
      * destruct err as [e|]; [|discriminate]. rewrite Ha. reflexivity.
Qed.

(** The loop of Upload starts on the created file and ends on a staged
    one. *)
Lemma copyLoop_result (r : Reader) (w : World B) :
  exists flow disk,
    copyLoop local "/tmp/thanos.tmp" r [] (created w) = (flow, staged w disk).
Proof.
  destruct (copyLoop_shape r [] [] w) as [disk Hd].
  rewrite <- created_staged in Hd.
  destruct (copyLoop local "/tmp/thanos.tmp" r [] (created w)) as [flow w1].
  cbn [snd] in Hd. subst w1. now exists flow, disk.
Qed.

(** The loop of Upload on answers that carry bytes, written without a
    failure, up to an answer at which it breaks. *)
Lemma copyLoop_completes (pre rest : Reader) (w : World B) :
  forallb goesOn pre = true ->
  writesOk local [] pre = true ->
  breaksAt rest = true ->
  copyLoop local "/tmp/thanos.tmp" (pre ++ rest)%list [] (created w)
    = (Normal (inBuffer pre), staged w (onDisk pre)).
Proof.
  intros Hgo Hw Hbr. rewrite created_staged.
  rewrite (copyLoop_goes_on pre rest [] [] w Hgo Hw).
  now apply copyLoop_breaks.
Qed.

(** *** Upload, case by case *)

Lemma os_Create_ok (w : World B) :
  create_fails local tmpFilename = None ->
  os_Create local "/tmp/thanos.tmp" w = (Normal None, created w).
Proof. unfold os_Create, tmpFilename. now intros ->. Qed.

(** The deferred function of Upload. *)
Lemma deferred_Close (w : World B) :
  bind (fo_Close local "/tmp/thanos.tmp")
       (fun err => match err with Some e => panic e | None => ret tt end) w
  = match close_fails local tmpFilename with
    | Some c => (Panicking c, w)
    | None => (Normal tt, w)
    end.
Proof.
  unfold bind, fo_Close, tmpFilename.
  destruct (close_fails local "/tmp/thanos.tmp"); reflexivity.
Qed.

(** The flush of Upload on a staged file. *)
Lemma w_Flush_staged (w : World B) (disk buf : bytes) :
  w_Flush local "/tmp/thanos.tmp" buf (staged w disk)
  = match (if (length buf =? 0)%nat then None
           else flush_fails local (disk ++ buf)%list) with
    | Some e => (Normal (Some e), staged w disk)
    | None => (Normal None, staged w (disk ++ buf)%list)
    end.
Proof.
  unfold w_Flush. destruct (length buf =? 0)%nat eqn:Hb.
  - apply Nat.eqb_eq, nil_length_inv in Hb. subst buf. now rewrite app_nil_r.
  - rewrite contentOf_staged.
    destruct (flush_fails local (disk ++ buf)%list); [reflexivity|].
    now rewrite fo_Write_staged.
Qed.

(** Upload, case by case: the creation, the copy loop, the flush, the
    backend call, the removal, and the deferred Close over all of them
    but the creation. *)
Lemma Upload_cases (name : string) (r : Reader) (w : World B)
  (flow : Flow bytes) (disk : bytes) :
  copyLoop local "/tmp/thanos.tmp" r [] (created w) = (flow, staged w disk) ->
  Upload client local name r w =
  match create_fails local tmpFilename with
  | Some e => (Panic e, w)
  | None =>
      let '(out, w') :=
        match flow with
        | Panicking v => (Panic v, staged w disk)
        | Normal buf =>
            match (if (length buf =? 0)%nat then None
                   else flush_fails local (disk ++ buf)%list) with
            | Some e => (Panic e, staged w disk)
            | None =>
                let files := <[tmpFilename := (disk ++ buf)%list]> (fs w) in
                let called :=
                  (trace w ++ [CallUploadFile name tmpFilename 2147483648])%list in
                match oss.UploadFile client name tmpFilename 2147483648 files
                        (backend w) with
                | (Some e, b') =>
                    (Return (Some (errors.Wrap e "upload oss object")),
                     mkWorld b' files called)
                | (None, b') =>
                    match remove_fails local tmpFilename with
                    | Some e =>
                        (Return (Some (errors.Wrap e "deleted tmp uploadFile")),
                         mkWorld b' files called)
                    | None =>
                        (Return None, mkWorld b' (delete tmpFilename (fs w)) called)
                    end
                end
            end
        end in
      match close_fails local tmpFilename with
      | Some c => (Panic c, w')
      | None => (out, w')
      end
  end.
Proof.
  intros Hloop.
  destruct (create_fails local tmpFilename) as [e|] eqn:Hc.
  { unfold Upload, Upload_go, tmpFilename in *.
    unfold bind at 1. unfold os_Create. rewrite Hc. reflexivity. }
  unfold Upload, Upload_go. cbv zeta.
  rewrite (bind_normal _ _ _ _ _ (os_Create_ok w Hc)).
  unfold defer.
  destruct flow as [buf|v].
  2:{ rewrite (bind_panicking _ _ _ _ _ Hloop), deferred_Close.
      destruct (close_fails local tmpFilename); reflexivity. }
  rewrite (bind_normal _ _ _ _ _ Hloop).
  pose proof (w_Flush_staged w disk buf) as Hflush.
  destruct (if (length buf =? 0)%nat then None
            else flush_fails local (disk ++ buf)%list) as [e|].
  { rewrite (bind_normal _ _ _ _ _ Hflush). unfold panic at 1.
    rewrite deferred_Close.
    destruct (close_fails local tmpFilename); reflexivity. }
  rewrite (bind_normal _ _ _ _ _ Hflush).
  change (1024 * 1024 * 1024 * 2) with 2147483648.
  set (files := <[tmpFilename := (disk ++ buf)%list]> (fs w)).
  set (called := (trace w ++ [CallUploadFile name tmpFilename 2147483648])%list).
  destruct (oss.UploadFile client name tmpFilename 2147483648 files (backend w))
    as [up b'] eqn:Hup.
  assert (Hcall : bkt_UploadFile client name "/tmp/thanos.tmp" 2147483648
                    (staged w (disk ++ buf)%list)
                  = (Normal up, mkWorld b' files called)).
  { change (bkt_UploadFile client name "/tmp/thanos.tmp" 2147483648
              (staged w (disk ++ buf)%list))
      with (let '(r0, b0) :=
              oss.UploadFile client name tmpFilename 2147483648 files (backend w) in
            (@Normal (option error) r0, mkWorld b0 files called)).
    now rewrite Hup. }
  rewrite (bind_normal _ _ _ _ _ Hcall).
  destruct up as [e|].
  - unfold ret at 1. rewrite deferred_Close.
    destruct (close_fails local tmpFilename); reflexivity.
  - destruct (remove_fails local tmpFilename) as [e|] eqn:Hrm.
    + assert (Hremove : os_Remove local "/tmp/thanos.tmp" (mkWorld b' files called)
                        = (Normal (Some e), mkWorld b' files called)).
      { unfold os_Remove. fold tmpFilename. now rewrite Hrm. }
      rewrite (bind_normal _ _ _ _ _ Hremove).
      unfold ret at 1. rewrite deferred_Close.
      destruct (close_fails local tmpFilename); reflexivity.
    + assert (Hremove : os_Remove local "/tmp/thanos.tmp" (mkWorld b' files called)
                        = (Normal None,
                           mkWorld b' (delete tmpFilename (fs w)) called)).
      { unfold os_Remove. fold tmpFilename. rewrite Hrm. cbn [backend fs trace].
        unfold files. rewrite lookup_insert_eq. now rewrite delete_insert_eq. }
      rewrite (bind_normal _ _ _ _ _ Hremove).
      unfold ret at 1. rewrite deferred_Close.
      destruct (close_fails local tmpFilename); reflexivity.
Qed.

(** Upload panics when the scratch file cannot be created. *)
Lemma Upload_create_fails (name : string) (r : Reader) (w : World B) (e : error) :
  create_fails local tmpFilename = Some e ->
  Upload client local name r w = (Panic e, w).
Proof.
  intros Hc. unfold Upload, Upload_go, tmpFilename in *.
  unfold bind at 1. unfold os_Create. rewrite Hc. reflexivity.
Qed.

(** C4 (as the code has it): a failed read (an error other than
    io.EOF), a failed write of the buffered writer to the scratch file
    and a failed flush make Upload panic; it returns no error value for
    them.  The panic carries the read, write or flush error, or the
    error of the deferred Close when that fails too; the backend is not
    called and the scratch file stays.  After a failed read the file
    holds the bytes the writer had passed on to it before. *)
Theorem Upload_panics_on_local_failure (name : string) (pre post : Reader)
  (chunk : bytes) (w : World B) :
  create_fails local tmpFilename = None ->
  forallb goesOn pre = true ->
  writesOk local [] pre = true ->
  (forall e, e <> EOF ->
     Upload client local name (pre ++ (chunk, Some e) :: post)%list w
       = (Panic (afterClose local e), staged w (onDisk pre))) /\
  (forall err e',
     goesOn (chunk, err) = true ->
     (defaultBufSize - length (inBuffer pre) < length chunk)%nat ->
     write_fails local (bytesOf pre) chunk = Some e' ->
     fst (Upload client local name (pre ++ (chunk, err) :: post)%list w)
       = Panic (afterClose local e') /\
     backend (snd (Upload client local name (pre ++ (chunk, err) :: post)%list w))
       = backend w /\
     trace (snd (Upload client local name (pre ++ (chunk, err) :: post)%list w))
       = trace w /\
     is_Some (fs (snd (Upload client local name (pre ++ (chunk, err) :: post)%list w))
                !! tmpFilename)) /\
  (forall e',
     breaksAt post = true ->
     inBuffer pre <> [] ->
     flush_fails local (bytesOf pre) = Some e' ->
     fst (Upload client local name (pre ++ post)%list w)
       = Panic (afterClose local e') /\
     backend (snd (Upload client local name (pre ++ post)%list w)) = backend w /\
     trace (snd (Upload client local name (pre ++ post)%list w)) = trace w /\
     is_Some (fs (snd (Upload client local name (pre ++ post)%list w))
                !! tmpFilename)).
Proof.
  intros Hc Hgo Hw.
  assert (Hscratch : forall d, is_Some (fs (staged w d) !! tmpFilename)).
  { intros d. unfold staged, tmpFilename. cbn [fs]. rewrite lookup_insert_eq. eauto. }
  split; [|split].
  - intros e He.
    assert (Hloop : copyLoop local "/tmp/thanos.tmp"
                      (pre ++ (chunk, Some e) :: post)%list [] (created w)
                    = (Panicking e, staged w (onDisk pre))).
    { rewrite created_staged, (copyLoop_goes_on pre _ [] [] w Hgo Hw).
      now apply copyLoop_read_error. }
    rewrite (Upload_cases name _ w _ _ Hloop), Hc. unfold afterClose.
    destruct (close_fails local tmpFilename); reflexivity.
  - intros err e' Ha Hfit Hwf.
    assert (Hloop : copyLoop local "/tmp/thanos.tmp"
                      (pre ++ (chunk, err) :: post)%list [] (created w)
                    = (Panicking e', staged w (onDisk pre))).
    { rewrite created_staged, (copyLoop_goes_on pre _ [] [] w Hgo Hw).
      apply copyLoop_write_error; [exact Ha | exact Hfit |].
      fold (onDisk pre). fold (inBuffer pre). now rewrite onDisk_inBuffer. }
    rewrite (Upload_cases name _ w _ _ Hloop), Hc. unfold afterClose.
    destruct (close_fails local tmpFilename); cbn [fst snd];
      (repeat split; [apply Hscratch]).
  - intros e' Hbr Hbuf Hff.
    pose proof (copyLoop_completes pre post w Hgo Hw Hbr) as Hloop.
    rewrite (Upload_cases name _ w _ _ Hloop), Hc.
    destruct (length (inBuffer pre) =? 0)%nat eqn:Hlen.
    { apply Nat.eqb_eq, nil_length_inv in Hlen. contradiction. }
    rewrite onDisk_inBuffer, Hff. unfold afterClose.
    destruct (close_fails local tmpFilename); cbn [fst snd];
      (repeat split; [apply Hscratch]).
Qed.

(** C5 (as the code has it), for an upload the backend accepts: Upload
    then removes the scratch file.  When the removal succeeds the file
    is gone and Upload returns nil; when the removal fails the file
    stays and Upload returns that failure, wrapped as "deleted tmp
    uploadFile", as its error.  In both cases a failure of the deferred
    Close puts a panic with the error of Close in the place of what
    Upload returns. *)
Theorem Upload_cleanup_after_backend_success (name : string) (pre rest : Reader)
  (w : World B) (b' : B) :
  create_fails local tmpFilename = None ->
  forallb goesOn pre = true ->
  writesOk local [] pre = true ->
  breaksAt rest = true ->
  flush_fails local (bytesOf pre) = None ->
  oss.UploadFile client name tmpFilename 2147483648
    (<[tmpFilename := bytesOf pre]> (fs w)) (backend w) = (None, b') ->
  let called := (trace w ++ [CallUploadFile name tmpFilename 2147483648])%list in
  let closed (out : Outcome (option error)) :=
    match close_fails local tmpFilename with
    | Some c => Panic c
    | None => out
    end in
  match remove_fails local tmpFilename with
  | None =>
      Upload client local name (pre ++ rest)%list w
        = (closed (Return None), mkWorld b' (delete tmpFilename (fs w)) called) /\
      delete tmpFilename (fs w) !! tmpFilename = None
  | Some e =>
      Upload client local name (pre ++ rest)%list w
        = (closed (Return (Some (errors.Wrap e "deleted tmp uploadFile"))),
           mkWorld b' (<[tmpFilename := bytesOf pre]> (fs w)) called) /\
      <[tmpFilename := bytesOf pre]> (fs w) !! tmpFilename = Some (bytesOf pre)
  end.
Proof.
  intros Hc Hgo Hw Hbr Hf Hup called closed.
  pose proof (copyLoop_completes pre rest w Hgo Hw Hbr) as Hloop.
  rewrite (Upload_cases name _ w _ _ Hloop), Hc.
  rewrite onDisk_inBuffer, Hf.
  replace (if (length (inBuffer pre) =? 0)%nat then None else None)
    with (@None error) by (now destruct (length (inBuffer pre) =? 0)%nat).
  cbv zeta. use_upload Hup. unfold closed.
  destruct (remove_fails local tmpFilename) as [e|].
  - split; [|apply lookup_insert_eq].
    destruct (close_fails local tmpFilename); reflexivity.
  - split; [|apply lookup_delete_eq].
    destruct (close_fails local tmpFilename); reflexivity.
Qed.

(** When the backend refuses the upload, Upload returns at once and the
    scratch file stays: the removal at line 130 is not reached. *)
Lemma Upload_backend_failure_keeps_scratch (name : string) (pre rest : Reader)
  (w : World B) (e : error) (b' : B) :
  create_fails local tmpFilename = None ->
  forallb goesOn pre = true ->
  writesOk local [] pre = true ->
  breaksAt rest = true ->
  flush_fails local (bytesOf pre) = None ->
  close_fails local tmpFilename = None ->
  oss.UploadFile client name tmpFilename 2147483648
    (<[tmpFilename := bytesOf pre]> (fs w)) (backend w) = (Some e, b') ->
  Upload client local name (pre ++ rest)%list w
    = (Return (Some (errors.Wrap e "upload oss object")),
       mkWorld b' (<[tmpFilename := bytesOf pre]> (fs w))
         (trace w ++ [CallUploadFile name tmpFilename 2147483648])).
Proof.
  intros Hc Hgo Hw Hbr Hf Hcl Hup.
  pose proof (copyLoop_completes pre rest w Hgo Hw Hbr) as Hloop.
  rewrite (Upload_cases name _ w _ _ Hloop), Hc, Hcl.
  rewrite onDisk_inBuffer, Hf.
  replace (if (length (inBuffer pre) =? 0)%nat then None else None)
    with (@None error) by (now destruct (length (inBuffer pre) =? 0)%nat).
  cbv zeta. use_upload Hup. reflexivity.
Qed.

End UploadFacts.

(** Witness of [Upload_panics_on_local_failure]: a reader that delivers
    two bytes, which stay in the buffer, and then fails; a chunk larger
    than the buffer on a file that cannot be written; a flush that
    fails. *)
Lemma Upload_panics_on_local_failure_witness :
  Upload (Synthetic.client None) Synthetic.sound "new" Synthetic.failing Synthetic.w0
    = (Panic (afterClose Synthetic.sound Synthetic.brokenPipe),
       staged Synthetic.w0 (onDisk [(["h"; "e"]%byte, None)])) /\
  (fst (Upload (Synthetic.client None) Fixtures.unwritable "new"
          ([] ++ [(Fixtures.large, None)])%list Synthetic.w0)
     = Panic (afterClose Fixtures.unwritable Fixtures.readOnly) /\
   backend (snd (Upload (Synthetic.client None) Fixtures.unwritable "new"
                   ([] ++ [(Fixtures.large, None)])%list Synthetic.w0))
     = backend Synthetic.w0 /\
   trace (snd (Upload (Synthetic.client None) Fixtures.unwritable "new"
                 ([] ++ [(Fixtures.large, None)])%list Synthetic.w0))
     = trace Synthetic.w0 /\
   is_Some (fs (snd (Upload (Synthetic.client None) Fixtures.unwritable "new"
                       ([] ++ [(Fixtures.large, None)])%list Synthetic.w0))
              !! tmpFilename)) /\
  (fst (Upload (Synthetic.client None) Fixtures.full "new"
          (Synthetic.twoChunks ++ [])%list Synthetic.w0)
     = Panic (afterClose Fixtures.full Fixtures.noSpace) /\
   backend (snd (Upload (Synthetic.client None) Fixtures.full "new"
                   (Synthetic.twoChunks ++ [])%list Synthetic.w0))
     = backend Synthetic.w0 /\
   trace (snd (Upload (Synthetic.client None) Fixtures.full "new"
                 (Synthetic.twoChunks ++ [])%list Synthetic.w0))
     = trace Synthetic.w0 /\
   is_Some (fs (snd (Upload (Synthetic.client None) Fixtures.full "new"
                       (Synthetic.twoChunks ++ [])%list Synthetic.w0))
              !! tmpFilename)).
Proof.
  split; [|split].
  - apply (proj1 (Upload_panics_on_local_failure (Synthetic.client None)
                    Synthetic.sound "new" [(["h"; "e"]%byte, None)] [] []
                    Synthetic.w0 eq_refl eq_refl eq_refl)).
    discriminate.
  - apply (proj1 (proj2 (Upload_panics_on_local_failure (Synthetic.client None)
                           Fixtures.unwritable "new" [] [] Fixtures.large
                           Synthetic.w0 eq_refl eq_refl eq_refl))
             None Fixtures.readOnly).
    + reflexivity.
    + apply Nat.ltb_lt. vm_compute. reflexivity.
    + reflexivity.
  - apply (proj2 (proj2 (Upload_panics_on_local_failure (Synthetic.client None)
                           Fixtures.full "new" Synthetic.twoChunks [] []
                           Synthetic.w0 eq_refl eq_refl eq_refl))
             Fixtures.noSpace).
    + reflexivity.
    + discriminate.
    + reflexivity.
Defined.

(** C4, the claim refuted: on a reader whose second read fails, Upload
    does not return an error value, it panics with the read error. *)
Lemma Upload_read_failure_is_a_panic :
  fst (Upload (Synthetic.client None) Synthetic.sound "new" Synthetic.failing
         Synthetic.w0)
    = Panic Synthetic.brokenPipe /\
  ~ (exists err,
       fst (Upload (Synthetic.client None) Synthetic.sound "new" Synthetic.failing
              Synthetic.w0)
       = Return err).
Proof.
  split; [vm_compute; reflexivity|].
  intros [err H]. vm_compute in H. discriminate H.
Qed.

(** A failed read after a chunk larger than the buffer: the chunk went
    straight to the scratch file and is there after the panic; after a
    chunk that fits the buffer the file is empty. *)
Example Upload_read_failure_leaves_spilled_bytes :
  fs (snd (Upload (Synthetic.client None) Synthetic.sound "new"
             [(Fixtures.large, None); ([], Some Synthetic.brokenPipe)] Synthetic.w0))
    !! tmpFilename = Some Fixtures.large /\
  fs (snd (Upload (Synthetic.client None) Synthetic.sound "new" Synthetic.failing
             Synthetic.w0))
    !! tmpFilename = Some [].
Proof. vm_compute. split; reflexivity. Qed.

(** A failed flush is a panic too. *)
Example Upload_flush_failure_is_a_panic :
  fst (Upload (Synthetic.client None) Fixtures.full "new" Synthetic.twoChunks
         Synthetic.w0)
    = Panic Fixtures.noSpace.
Proof. vm_compute. reflexivity. Qed.

(** Witness of [Upload_cleanup_after_backend_success]: "hello" in two
    chunks on a local system where the removal fails. *)
Lemma Upload_cleanup_after_backend_success_witness :
  Upload (Synthetic.client None) Synthetic.stuck "new" Synthetic.twoChunks Synthetic.w0
    = (Return (Some (errors.Wrap Synthetic.busy "deleted tmp uploadFile")),
       mkWorld (<["new" := Synthetic.hello]> (backend Synthetic.w0))
         (<[tmpFilename := Synthetic.hello]> (fs Synthetic.w0))
         [CallUploadFile "new" tmpFilename 2147483648]) /\
  <[tmpFilename := Synthetic.hello]> (fs Synthetic.w0) !! tmpFilename
    = Some Synthetic.hello.
Proof.
  apply (Upload_cleanup_after_backend_success (Synthetic.client None) Synthetic.stuck
           "new" Synthetic.twoChunks [] Synthetic.w0
           (<["new" := Synthetic.hello]> (backend Synthetic.w0))
           eq_refl eq_refl eq_refl eq_refl eq_refl eq_refl).
Defined.

(** C5, the claim refuted: the backend stores the object, the removal
    of the scratch file fails, and Upload returns that failure as its
    error in place of nil. *)
Lemma Upload_cleanup_failure_is_the_result :
  let run := Upload (Synthetic.client None) Synthetic.stuck "new"
               Synthetic.twoChunks Synthetic.w0 in
  backend (snd run) !! "new" = Some Synthetic.hello /\
  fst run = Return (Some (errors.Wrap Synthetic.busy "deleted tmp uploadFile")) /\
  fs (snd run) !! tmpFilename = Some Synthetic.hello.
Proof. vm_compute. repeat split. Qed.

(** The other path that leaves the scratch file behind: the backend
    refuses the upload. *)
Example Upload_refused_keeps_scratch :
  let refused := foreign Permission "oss: service returned error: StatusCode=403" in
  let run := Upload (Synthetic.client (Some refused)) Synthetic.sound "new"
               Synthetic.twoChunks Synthetic.w0 in
  fst run = Return (Some (errors.Wrap refused "upload oss object")) /\
  fs (snd run) !! tmpFilename = Some Synthetic.hello.
Proof. vm_compute. repeat split. Qed.

(* ===================================================================== *)
(** ** Configuration and construction                                    *)
(* ===================================================================== *)

(** validate in terms of the fields: it passes exactly when none is
    empty, and otherwise fails with [insufficient]. *)
Lemma validate_fields (conf : Config) :
  ((Bucket conf <> "" /\ Endpoint conf <> "" /\
    AccessID conf <> "" /\ AccessKey conf <> "") <-> validate conf = None) /\
  (Bucket conf = "" \/ Endpoint conf = "" \/
   AccessID conf = "" \/ AccessKey conf = "" -> validate conf = Some insufficient).
Proof.
  unfold validate, insufficient.
  destruct (String.eqb_spec (Bucket conf) "") as [Hb|Hb];
  destruct (String.eqb_spec (Endpoint conf) "") as [He|He];
  destruct (String.eqb_spec (AccessID conf) "") as [Hi|Hi];
  destruct (String.eqb_spec (AccessKey conf) "") as [Hk|Hk];
  simpl; (split; [split; intros H | intros H]);
  try discriminate; try reflexivity; try tauto.
Qed.

Lemma validateForTest_validate (conf : Config) :
  validateForTest conf = validate conf.
Proof.
  unfold validateForTest, validate.
  destruct (String.eqb (Bucket conf) ""), (String.eqb (Endpoint conf) ""),
           (String.eqb (AccessID conf) ""), (String.eqb (AccessKey conf) "");
    reflexivity.
Qed.

(** X1: validateForTest and validate decide alike: they test the same
    four fields, in a different order, and fail with the same error. *)
Theorem validateForTest_agrees (conf : Config) :
  validateForTest conf = validate conf.
Proof. exact (validateForTest_validate conf). Qed.

Section ConstructionFacts.

Context {L C H : Type}.

(** What the success of NewBucket tells. *)
Lemma NewBucket_inversion (ext : Construct L C H) (logger : option L)
  (conf : bytes) (component : string) (b : BucketStruct.t L H) :
  NewBucket ext logger conf component = Ok b ->
  exists config client,
    yaml_Unmarshal ext conf (mkConfig "" "" "" "") = (None, config) /\
    validate config = None /\
    Name b = Bucket config /\
    Name b <> "" /\
    oss_New ext (Endpoint config) (AccessID config) (AccessKey config) = Ok client /\
    client_Bucket ext client (Bucket config) = Ok (BucketStruct.bkt b) /\
    BucketStruct.logger b
      = match logger with None => NewNopLogger ext | Some l => l end.
Proof.
  unfold NewBucket. intros Hnew.
  destruct (yaml_Unmarshal ext conf (mkConfig "" "" "" "")) as [[e|] config] eqn:Hu;
    [discriminate|].
  destruct (validate config) as [e|] eqn:Hv; [discriminate|].
  destruct (oss_New ext (Endpoint config) (AccessID config) (AccessKey config))
    as [client|e] eqn:Hc; [|discriminate].
  destruct (client_Bucket ext client (Bucket config)) as [bucket|e] eqn:Hb;
    [|discriminate].
  injection Hnew as <-. exists config, client. cbn [Name BucketStruct.name
    BucketStruct.bkt BucketStruct.logger].
  repeat split; try assumption; try reflexivity.
  exact (proj1 (proj2 (proj1 (validate_fields config)) Hv)).
Qed.

(** X2: a bucket that NewBucket returns is bound to the bucket the
    decoded configuration names, and that name is not empty; the
    configuration passed validation; the handle is the one the SDK gave
    for that name; and the logger is the given one, or the no-op logger
    when none was given. *)
Theorem NewBucket_success (ext : Construct L C H) (logger : option L)
  (conf : bytes) (component : string) (b : BucketStruct.t L H) :
  NewBucket ext logger conf component = Ok b ->
  exists config client,
    yaml_Unmarshal ext conf (mkConfig "" "" "" "") = (None, config) /\
    validate config = None /\
    Name b = Bucket config /\
    Name b <> "" /\
    oss_New ext (Endpoint config) (AccessID config) (AccessKey config) = Ok client /\
    client_Bucket ext client (Bucket config) = Ok (BucketStruct.bkt b) /\
    BucketStruct.logger b
      = match logger with None => NewNopLogger ext | Some l => l end.
Proof. exact (NewBucket_inversion ext logger conf component b). Qed.

(** X3: when the decoded configuration lacks one of the four fields,
    NewBucket fails with the validation error under the message
    "validate oss configuration", whatever [oss.New] and [client.Bucket]
    would answer: the SDK is not consulted. *)
Theorem NewBucket_incomplete_config (nop : L)
  (unmarshal : bytes -> Config -> option error * Config)
  (marshal : Config -> result bytes)
  (new : string -> string -> string -> result C)
  (bucket : C -> string -> result H)
  (logger : option L) (conf : bytes) (component : string) (config : Config) :
  unmarshal conf (mkConfig "" "" "" "") = (None, config) ->
  Bucket config = "" \/ Endpoint config = "" \/
  AccessID config = "" \/ AccessKey config = "" ->
  NewBucket (mkConstruct L C H nop unmarshal marshal new bucket) logger conf component
    = Err (errors.Wrap insufficient "validate oss configuration") /\
  Error (errors.Wrap insufficient "validate oss configuration")
    = "validate oss configuration: insufficient oss configuration information".
Proof.
  intros Hu Hmiss. split; [|reflexivity].
  unfold NewBucket. cbn [yaml_Unmarshal]. rewrite Hu.
  apply (proj2 (validate_fields config)) in Hmiss. rewrite Hmiss. reflexivity.
Qed.

End ConstructionFacts.

(** Witness of [NewBucket_success]. *)
Lemma NewBucket_success_witness :
  exists config client,
    yaml_Unmarshal Fixtures.construct Synthetic.hello (mkConfig "" "" "" "")
      = (None, config) /\
    validate config = None /\
    Name (BucketStruct.mk tt (Synthetic.client None) "thanos") = Bucket config /\
    Name (BucketStruct.mk tt (Synthetic.client None) "thanos") <> "" /\
    oss_New Fixtures.construct (Endpoint config) (AccessID config) (AccessKey config)
      = Ok client /\
    client_Bucket Fixtures.construct client (Bucket config)
      = Ok (BucketStruct.bkt (BucketStruct.mk tt (Synthetic.client None) "thanos")) /\
    BucketStruct.logger (BucketStruct.mk tt (Synthetic.client None) "thanos")
      = NewNopLogger Fixtures.construct.
Proof.
  apply (NewBucket_success Fixtures.construct None Synthetic.hello "store"
           (BucketStruct.mk tt (Synthetic.client None) "thanos")).
  reflexivity.
Defined.

(** Witness of [NewBucket_incomplete_config]: a configuration without
    access key, and an SDK that would fail. *)
Lemma NewBucket_incomplete_config_witness :
  NewBucket
    (mkConstruct unit unit unit tt (yaml_Unmarshal Fixtures.construct)
       (fun _ => Ok []) (fun _ _ _ => Err Fixtures.unreachable)
       (fun _ _ => Err Fixtures.unreachable))
    None ["h"; "e"]%byte "store"
    = Err (errors.Wrap insufficient "validate oss configuration") /\
  Error (errors.Wrap insufficient "validate oss configuration")
    = "validate oss configuration: insufficient oss configuration information".
Proof.
  apply (NewBucket_incomplete_config tt (yaml_Unmarshal Fixtures.construct)
           (fun _ => Ok []) (fun _ _ _ => Err Fixtures.unreachable)
           (fun _ _ => Err Fixtures.unreachable)
           None ["h"; "e"]%byte "store"
           (mkConfig "thanos" "oss.example.com" "id" "")).
  - reflexivity.
  - right. right. right. reflexivity.
Defined.

(* ===================================================================== *)
(** ** Delete and the not-found classification                           *)
(* ===================================================================== *)

(** A prefix in which the first character of [sub] does not occur adds
    no occurrence of [sub]. *)
Lemma Contains_after_prefix (p s : string) (c : ascii) (sub : string) :
  Contains p (String c "") = false ->
  Contains (p ++ s) (String c sub) = Contains s (String c sub).
Proof.
  induction p as [|d p IH]; intros Hp.
  - reflexivity.
  - rewrite append_cons. rewrite Contains_unfold in Hp.
    apply orb_false_iff in Hp as [Hd Hp]. simpl in Hd.
    rewrite andb_true_r in Hd.
    rewrite Contains_unfold. simpl HasPrefix. rewrite Hd. simpl.
    apply IH, Hp.
Qed.

(** Wrapping under a message without a capital S leaves the
    classification as it was. *)
Lemma IsObjNotFoundErr_Wrap_same (err : error) (msg : string) :
  Contains (msg ++ ": ") "S" = false ->
  IsObjNotFoundErr (errors.Wrap err msg) = IsObjNotFoundErr err.
Proof.
  intros Hmsg. unfold IsObjNotFoundErr. simpl Error.
  rewrite <- append_assoc.
  exact (Contains_after_prefix (msg ++ ": ") (Error err) "S" "tatusCode=404" Hmsg).
Qed.

Section DeleteFacts.

Context {B : Type}.
Variable calls : ObjectCalls B.

(** X4: Delete succeeds exactly when the SDK call does and leaves the
    backend as that call left it; a failure comes back wrapped under
    "delete oss object", and IsObjNotFoundErr answers on the wrapped
    error what it answers on the SDK's own. *)
Theorem Delete_keeps_classification (name : string) (b : B) :
  match Delete calls name b with
  | (None, b') => DeleteObject calls name b = (None, b')
  | (Some e, b') =>
      exists cause,
        DeleteObject calls name b = (Some cause, b') /\
        e = errors.Wrap cause "delete oss object" /\
        Error e = "delete oss object: " ++ Error cause /\
        IsObjNotFoundErr e = IsObjNotFoundErr cause
  end.
Proof.
  unfold Delete. destruct (DeleteObject calls name b) as [[cause|] b'].
  - exists cause. split; [reflexivity|]. split; [reflexivity|].
    split; [reflexivity|]. apply IsObjNotFoundErr_Wrap_same. reflexivity.
  - reflexivity.
Qed.

End DeleteFacts.

(** Deleting a missing object from the synthetic store is classified as
    not-found, deleting a present one removes it. *)
Example Delete_missing_then_present :
  (let '(e, b') := Delete Fixtures.objectCalls "gone" (backend Synthetic.w0) in
   option_map IsObjNotFoundErr e = Some true /\ b' = backend Synthetic.w0) /\
  (let '(e, b') := Delete Fixtures.objectCalls "obj" (backend Synthetic.w0) in
   e = None /\ b' !! "obj" = None).
Proof. vm_compute. repeat split. Qed.

(* ===================================================================== *)
(** ** setRange                                                          *)
(* ===================================================================== *)

(** X5: setRange accepts exactly the ranges that start at 0 (whatever
    the end), and those that start above 0 and end at 0 or not before
    the start; a range it rejects leaves the options as they were. *)
Theorem setRange_accepts (opts : cos.ObjectGetOptions) (start end_ : Z) :
  (fst (setRange opts start end_) = None <->
   start = 0 \/ (0 < start /\ (end_ = 0 \/ start <= end_))) /\
  (fst (setRange opts start end_) = None \/ snd (setRange opts start end_) = opts).
Proof.
  unfold setRange.
  destruct (Z.eqb_spec start 0) as [Hs|Hs];
  destruct (Z.ltb_spec end_ 0) as [He|He];
  destruct (Z.ltb_spec 0 start) as [Hp|Hp];
  destruct (Z.eqb_spec end_ 0) as [Hz|Hz];
  destruct (Z.leb_spec 0 start) as [Hn|Hn];
  destruct (Z.leb_spec start end_) as [Hl|Hl];
  cbn [andb fst snd]; (split; [split; intros H | ]);
  try reflexivity; try discriminate; try lia; try (left; reflexivity);
  try (right; reflexivity).
Qed.

(** X6: on the arguments getRange computes, in int64 arithmetic, for an
    offset that is not negative and a positive length: when offset +
    length - 1 is an int64, setRange succeeds and sets the closed range
    "bytes=off-end"; when it is not, the end has wrapped around to a
    negative number and setRange rejects the range, leaving the options
    as they were. *)
Theorem setRange_valid_request (opts : cos.ObjectGetOptions) (off length : Z) :
  0 <= off < 2 ^ 63 -> 0 < length < 2 ^ 63 ->
  (off + length - 1 < 2 ^ 63 ->
   setRange opts off (int64 (int64 (off + length) - 1))
     = (None, cos.mkOptions ("bytes=" ++ Sprintf_d off ++ "-"
                             ++ Sprintf_d (off + length - 1)))) /\
  (2 ^ 63 <= off + length - 1 ->
   setRange opts off (int64 (int64 (off + length) - 1))
     = (Some (errors.Errorf
                ("Invalid range specified: start=" ++ Sprintf_d off
                 ++ " end=" ++ Sprintf_d (off + length - 1 - 2 ^ 64))),
        opts)).
Proof.
  intros Hoff Hlen. rewrite int64_pred. split; intros Hsum.
  - rewrite int64_id by lia. unfold setRange.
    destruct (Z.eqb_spec off 0) as [Hs|Hs];
    destruct (Z.ltb_spec (off + length - 1) 0) as [He|He];
    destruct (Z.ltb_spec 0 off) as [Hp|Hp];
    destruct (Z.eqb_spec (off + length - 1) 0) as [Hz|Hz];
    destruct (Z.leb_spec 0 off) as [Hn|Hn];
    destruct (Z.leb_spec off (off + length - 1)) as [Hl|Hl];
    cbn [andb]; try reflexivity; lia.
  - assert (Hwrap : int64 (off + length - 1) = off + length - 1 - 2 ^ 64).
    { unfold int64.
      replace (off + length - 1 + 2 ^ 63)
        with ((off + length - 1 - 2 ^ 63) + 1 * 2 ^ 64) by lia.
      rewrite Z.mod_add by lia. rewrite Z.mod_small by lia. lia. }
    rewrite Hwrap. unfold setRange.
    destruct (Z.eqb_spec off 0) as [Hs|Hs];
    destruct (Z.ltb_spec (off + length - 1 - 2 ^ 64) 0) as [He|He];
    destruct (Z.ltb_spec 0 off) as [Hp|Hp];
    destruct (Z.eqb_spec (off + length - 1 - 2 ^ 64) 0) as [Hz|Hz];
    destruct (Z.leb_spec 0 off) as [Hn|Hn];
    destruct (Z.leb_spec off (off + length - 1 - 2 ^ 64)) as [Hl|Hl];
    cbn [andb]; try reflexivity; lia.
Qed.

(** Witness of [setRange_valid_request]: five bytes from offset 2. *)
Lemma setRange_valid_request_witness :
  setRange (cos.mkOptions "") 2 (int64 (int64 (2 + 5) - 1))
    = (None, cos.mkOptions "bytes=2-6").
Proof.
  apply (proj1 (setRange_valid_request (cos.mkOptions "") 2 5
                  ltac:(lia) ltac:(lia))).
  lia.
Defined.

(** Two bytes from the last offset: the end wraps around and the range
    is rejected. *)
Example setRange_wrapped_end :
  fst (setRange (cos.mkOptions "") (2 ^ 63 - 1)
         (int64 (int64 (2 ^ 63 - 1 + 2) - 1)))
    = Some (errors.Errorf
              "Invalid range specified: start=9223372036854775807 end=-9223372036854775808").
Proof. vm_compute. reflexivity. Qed.

(* ===================================================================== *)
(** ** Iter: more of its behaviour                                       *)
(* ===================================================================== *)

(** X7: the normalisation of the prefix is idempotent, so Iter on a
    prefix and on its normalised form are the same run, for every
    prefix: the empty one, one with the delimiter, one with several. *)
Theorem Iter_on_normalised_prefix {B S : Type} (client : oss.Client B)
  (f : string -> S -> option error * S) (fuel : nat) (dir : string)
  (s : S) (w : World B) :
  iterDir (iterDir dir) = iterDir dir /\
  Iter client f fuel (iterDir dir) s w = Iter client f fuel dir s w.
Proof.
  assert (Hidem : iterDir (iterDir dir) = iterDir dir).
  { destruct (String.eqb_spec dir "") as [->|Hne]; [reflexivity|].
    rewrite (iterDir_nonempty dir Hne).
    rewrite iterDir_nonempty.
    - now rewrite TrimSuffix_append.
    - destruct (TrimSuffix dir dirDelim); discriminate. }
  split; [exact Hidem|]. unfold Iter. now rewrite Hidem.
Qed.

Lemma no_call_among_visits (names : list string) :
  List.filter isCall (map (fun n => Visit n None) names) = [].
Proof. induction names as [|n l IH]; simpl; [reflexivity | exact IH]. Qed.

Section IterMore.

Context {B S : Type}.
Variable client : oss.Client B.
Variable f : string -> S -> option error * S.





(** X10: the loop has no bound of its own.  On a backend that marks
    every page as truncated, with a visitor that accepts, Iter is still
    running after any number of requests: it has issued as many as it
    was granted. *)
Theorem Iter_runs_while_truncated (fuel : nat) (dir : string) (s : S) (w : World B) :
  (forall options b, exists lor b',
      oss.ListObjects client options b = (Ok lor, b') /\
      oss.IsTruncated lor = true) ->
  (forall name s', fst (f name s') = None) ->
  fst (fst (Iter client f fuel dir s w)) = OutOfFuel /\
  length (List.filter isCall (trace (snd (Iter client f fuel dir s w))))
    = (length (List.filter isCall (trace w)) + fuel)%nat.
Proof.
  intros Hbackend Hok. unfold Iter. generalize (iterDir dir) as d.
  generalize "" as marker. intros marker d. revert marker s w.
  induction fuel as [|fuel IH]; intros marker s w.
  - simpl. split; [reflexivity | lia].
  - simpl iterLoop. unfold bkt_ListObjects.
    destruct (Hbackend (listOptions d marker) (backend w)) as (lor & b' & Hcall & Hmore).
    rewrite Hcall. rewrite visitAll_accepts by (intros; apply Hok).
    rewrite Hmore. cbn [negb backend fs trace].
    destruct (IH (oss.NextMarker lor) (visitorAfter f (listNamesOf lor) s)
                (mkWorld b' (fs w)
                   ((trace w ++ [CallListObjects (listOptions d marker)]) ++
                    map (fun n => Visit n None) (listNamesOf lor)))) as [Hout Hlen].
    split; [exact Hout|]. rewrite Hlen. cbn [trace].
    rewrite !List.filter_app, !length_app, no_call_among_visits. simpl. lia.
Qed.

End IterMore.



(** Witness of [Iter_runs_while_truncated]: seven requests granted,
    seven issued. *)
Lemma Iter_runs_while_truncated_witness :
  fst (fst (Iter Fixtures.endless Fixtures.accept 7 "a" tt (mkWorld tt ∅ [])))
    = OutOfFuel /\
  length (List.filter isCall
            (trace (snd (Iter Fixtures.endless Fixtures.accept 7 "a" tt
                           (mkWorld tt ∅ [])))))
    = (length (List.filter isCall (trace (mkWorld tt ∅ []))) + 7)%nat.
Proof.
  apply (Iter_runs_while_truncated Fixtures.endless Fixtures.accept 7 "a" tt
           (mkWorld tt ∅ [])).
  - intros options b. eexists _, _. split; reflexivity.
  - intros name s'. reflexivity.
Defined.

(* ===================================================================== *)
(** ** GetRange at the bounds of int64                                   *)
(* ===================================================================== *)

(** X11: when offset + length - 1 exceeds the largest int64, the end of
    the range GetRange sends has wrapped around: it is that sum less
    2^64, a negative number, below the offset. *)
Theorem GetRange_end_wraps {B : Type} (client : oss.Client B) (name : string)
  (off length : Z) (w : World B) :
  name <> "" ->
  0 <= off < 2 ^ 63 -> 0 < length < 2 ^ 63 ->
  2 ^ 63 <= off + length - 1 ->
  trace (snd (GetRange client name off length w))
    = (trace w ++ [CallGetObject name [oss.Range off (off + length - 1 - 2 ^ 64)]])%list /\
  off + length - 1 - 2 ^ 64 < 0.
Proof.
  intros Hname Hoff Hlen Hover.
  destruct (getRange_calls_backend client name off length w Hname) as (r & b' & _ & H).
  unfold GetRange. rewrite H. cbn [snd trace].
  assert (Hwrap : int64 (off + length - 1) = off + length - 1 - 2 ^ 64).
  { unfold int64.
    replace (off + length - 1 + 2 ^ 63)
      with ((off + length - 1 - 2 ^ 63) + 1 * 2 ^ 64) by lia.
    rewrite Z.mod_add by lia. rewrite Z.mod_small by lia. lia. }
  rewrite Hwrap. split; [reflexivity | lia].
Qed.

(** Witness of [GetRange_end_wraps]: two bytes from the last offset. *)
Lemma GetRange_end_wraps_witness :
  trace (snd (GetRange (Synthetic.client None) "obj" (2 ^ 63 - 1) 2 Synthetic.w0))
    = (trace Synthetic.w0
       ++ [CallGetObject "obj" [oss.Range (2 ^ 63 - 1) (2 ^ 63 - 1 + 2 - 1 - 2 ^ 64)]])%list /\
  2 ^ 63 - 1 + 2 - 1 - 2 ^ 64 < 0.
Proof.
  apply (GetRange_end_wraps (Synthetic.client None) "obj" (2 ^ 63 - 1) 2 Synthetic.w0).
  - discriminate.
  - lia.
  - lia.
  - lia.
Defined.

(* ===================================================================== *)
(** ** Upload: more of its behaviour                                     *)
(* ===================================================================== *)

Section UploadMore.

Context {B : Type}.
Variable client : oss.Client B.
Variable local : LocalOS.

(** X12: when nothing fails locally, Upload hands the backend, in one
    UploadFile call with a part size of 2 GiB, a scratch file that holds
    the bytes of all the reads in order (the chunk that comes with
    io.EOF included); and Upload returns nil exactly when that call and
    the removal of the scratch file succeed. *)
Theorem Upload_hands_over_all_bytes (name : string) (pre rest : Reader) (w : World B) :
  create_fails local tmpFilename = None ->
  forallb goesOn pre = true ->
  writesOk local [] pre = true ->
  breaksAt rest = true ->
  flush_fails local (bytesOf pre) = None ->
  close_fails local tmpFilename = None ->
  exists up b',
    oss.UploadFile client name tmpFilename 2147483648
      (<[tmpFilename := bytesOf pre]> (fs w)) (backend w) = (up, b') /\
    backend (snd (Upload client local name (pre ++ rest)%list w)) = b' /\
    trace (snd (Upload client local name (pre ++ rest)%list w))
      = (trace w ++ [CallUploadFile name tmpFilename 2147483648])%list /\
    (fst (Upload client local name (pre ++ rest)%list w) = Return None <->
     up = None /\ remove_fails local tmpFilename = None).
Proof.
  intros Hc Hgo Hw Hbr Hf Hcl.
  pose proof (copyLoop_completes local pre rest w Hgo Hw Hbr) as Hloop.
  rewrite (Upload_cases client local name _ w _ _ Hloop), Hc, Hcl.
  rewrite onDisk_inBuffer, Hf.
  replace (if (length (inBuffer pre) =? 0)%nat then None else None)
    with (@None error) by (now destruct (length (inBuffer pre) =? 0)%nat).
  cbv zeta.
  destruct (oss.UploadFile client name tmpFilename 2147483648
              (<[tmpFilename := bytesOf pre]> (fs w)) (backend w)) as [up b'] eqn:Hup.
  exists up, b'. split; [reflexivity|].
  use_upload Hup.
  destruct up as [e|].
  - repeat split; try discriminate. intros [H _]. discriminate H.
  - destruct (remove_fails local tmpFilename) as [e|].
    + repeat split; try discriminate. intros [_ H]. discriminate H.
    + repeat split.
Qed.

(** X13: a read that answers no bytes ends the input even when it
    reports no error: what the reader would deliver afterwards is never
    read, and Upload runs as on the answers before it. *)
Theorem Upload_zero_read_ends_input (name : string) (pre rest : Reader) (w : World B) :
  forallb goesOn pre = true ->
  breaksAt rest = true ->
  Upload client local name (pre ++ rest)%list w = Upload client local name pre w.
Proof.
  intros Hgo Hbr.
  destruct (copyLoop_result local pre w) as (flow & disk & Hloop).
  pose proof Hloop as Hloop'.
  rewrite <- (copyLoop_cut local pre rest [] (created w) Hgo Hbr) in Hloop'.
  rewrite (Upload_cases client local name _ w _ _ Hloop).
  now rewrite (Upload_cases client local name _ w _ _ Hloop').
Qed.

(** X14: once the scratch file is created, a failing Close decides the
    outcome: whatever the reader delivers and whatever the backend
    answers, even after a successful upload, Upload panics with the
    error of Close. *)
Theorem Upload_close_failure_panics (name : string) (r : Reader) (w : World B)
  (c : error) :
  create_fails local tmpFilename = None ->
  close_fails local tmpFilename = Some c ->
  fst (Upload client local name r w) = Panic c.
Proof.
  intros Hc Hcl.
  destruct (copyLoop_result local r w) as (flow & disk & Hloop).
  rewrite (Upload_cases client local name _ w _ _ Hloop), Hc, Hcl.
  match goal with |- fst (let '(_, _) := ?x in _) = _ => destruct x end.
  reflexivity.
Qed.



End UploadMore.

(** Witness of [Upload_hands_over_all_bytes]. *)
Lemma Upload_hands_over_all_bytes_witness :
  exists up b',
    oss.UploadFile (Synthetic.client None) "new" tmpFilename 2147483648
      (<[tmpFilename := bytesOf Synthetic.twoChunks]> (fs Synthetic.w0))
      (backend Synthetic.w0) = (up, b') /\
    backend (snd (Upload (Synthetic.client None) Synthetic.sound "new"
                    (Synthetic.twoChunks ++ [])%list Synthetic.w0)) = b' /\
    trace (snd (Upload (Synthetic.client None) Synthetic.sound "new"
                  (Synthetic.twoChunks ++ [])%list Synthetic.w0))
      = (trace Synthetic.w0 ++ [CallUploadFile "new" tmpFilename 2147483648])%list /\
    (fst (Upload (Synthetic.client None) Synthetic.sound "new"
            (Synthetic.twoChunks ++ [])%list Synthetic.w0) = Return None <->
     up = None /\ remove_fails Synthetic.sound tmpFilename = None).
Proof.
  apply (Upload_hands_over_all_bytes (Synthetic.client None) Synthetic.sound "new"
           Synthetic.twoChunks [] Synthetic.w0);
    reflexivity.
Defined.

(** Witness of [Upload_zero_read_ends_input]: "llo" comes after a read
    of no bytes and is not uploaded. *)
Lemma Upload_zero_read_ends_input_witness :
  Upload (Synthetic.client None) Synthetic.sound "new" Fixtures.pausing Synthetic.w0
    = Upload (Synthetic.client None) Synthetic.sound "new"
        [(["h"; "e"]%byte, None)] Synthetic.w0.
Proof.
  apply (Upload_zero_read_ends_input (Synthetic.client None) Synthetic.sound "new"
           [(["h"; "e"]%byte, None)]
           [([], None); (["l"; "l"; "o"]%byte, Some EOF)] Synthetic.w0);
    reflexivity.
Defined.

(** Witness of [Upload_close_failure_panics]: the object is stored and
    the scratch file removed, and Upload panics. *)
Lemma Upload_close_failure_panics_witness :
  fst (Upload (Synthetic.client None) Fixtures.closing "new" Synthetic.twoChunks
         Synthetic.w0)
    = Panic Fixtures.closeError.
Proof.
  apply (Upload_close_failure_panics (Synthetic.client None) Fixtures.closing "new"
           Synthetic.twoChunks Synthetic.w0 Fixtures.closeError);
    reflexivity.
Defined.


(** X21: when the backend refuses the upload, after a staging in which
    nothing failed, Upload returns the backend's error under "upload oss
    object" and the scratch file is still there with the staged bytes:
    the removal is not reached. *)
Theorem Upload_refused_leaves_scratch {B : Type} (client : oss.Client B)
  (local : LocalOS) (name : string) (pre rest : Reader) (w : World B)
  (e : error) (b' : B) :
  create_fails local tmpFilename = None ->
  forallb goesOn pre = true ->
  writesOk local [] pre = true ->
  breaksAt rest = true ->
  flush_fails local (bytesOf pre) = None ->
  close_fails local tmpFilename = None ->
  oss.UploadFile client name tmpFilename 2147483648
    (<[tmpFilename := bytesOf pre]> (fs w)) (backend w) = (Some e, b') ->
  fst (Upload client local name (pre ++ rest)%list w)
    = Return (Some (errors.Wrap e "upload oss object")) /\
  fs (snd (Upload client local name (pre ++ rest)%list w)) !! tmpFilename
    = Some (bytesOf pre).
Proof.
  intros Hc Hgo Hw Hbr Hf Hcl Hup.
  rewrite (Upload_backend_failure_keeps_scratch client local name pre rest w e b'
             Hc Hgo Hw Hbr Hf Hcl Hup).
  split; [reflexivity | apply lookup_insert_eq].
Qed.

(** Witness of [Upload_refused_leaves_scratch]: the backend refuses the
    credentials. *)
Lemma Upload_refused_leaves_scratch_witness :
  fst (Upload (Synthetic.client (Some (foreign Permission "oss: StatusCode=403")))
         Synthetic.sound "new" (Synthetic.twoChunks ++ [])%list Synthetic.w0)
    = Return (Some (errors.Wrap (foreign Permission "oss: StatusCode=403")
                      "upload oss object")) /\
  fs (snd (Upload (Synthetic.client (Some (foreign Permission "oss: StatusCode=403")))
             Synthetic.sound "new" (Synthetic.twoChunks ++ [])%list Synthetic.w0))
    !! tmpFilename
    = Some (bytesOf Synthetic.twoChunks).
Proof.
  apply (Upload_refused_leaves_scratch
           (Synthetic.client (Some (foreign Permission "oss: StatusCode=403")))
           Synthetic.sound "new" Synthetic.twoChunks [] Synthetic.w0
           (foreign Permission "oss: StatusCode=403") (backend Synthetic.w0));
    reflexivity.
Defined.

(* ===================================================================== *)
(** ** NewTestBucket                                                     *)
(* ===================================================================== *)

Lemma visited_snoc_call (t : list Event) (options : list oss.Option) :
  visited (t ++ [CallListObjects options]) = visited t.
Proof. rewrite visited_app. simpl. apply app_nil_r. Qed.

(** With a visitor that refuses every name, the loop returns nil only
    if it was given no name at all. *)
Lemma iterLoop_refusing {B S : Type} (client : oss.Client B)
  (f : string -> S -> option error * S) (fuel : nat) (dir marker : string)
  (s : S) (w : World B) :
  (forall name s', fst (f name s') <> None) ->
  fst (fst (iterLoop client f fuel dir marker s w)) = Return None ->
  visited (trace (snd (iterLoop client f fuel dir marker s w))) = visited (trace w).
Proof.
  intros Hrefuse. revert marker s w.
  induction fuel as [|fuel IH]; intros marker s w; [discriminate|].
  simpl iterLoop. unfold bkt_ListObjects.
  destruct (oss.ListObjects client (listOptions dir marker) (backend w))
    as [[lor|err] b1]; [|discriminate].
  destruct (listNamesOf lor) as [|n names].
  - simpl visitAll. destruct (oss.IsTruncated lor); cbn [negb].
    + intros Hret. rewrite (IH _ _ _ Hret). cbn [trace]. apply visited_snoc_call.
    + intros _. cbn [snd trace]. apply visited_snoc_call.
  - simpl visitAll. pose proof (Hrefuse n s) as Hn.
    destruct (f n s) as [[e|] s1]; [discriminate | contradiction].
Qed.

Section TestBucketFacts.

Context {L C B : Type}.
Variable ext : Construct L C (oss.Client B).

(** X17: without THANOS_ALLOW_EXISTING_BUCKET_USE in the environment
    NewTestBucket cannot succeed.  When one of the four OSS variables is
    empty it fails with the validation error, and when all four are set
    it fails with the "OSS_BUCKET is defined" error; in both cases
    without a log line and without touching the world. *)
Theorem NewTestBucket_needs_permission (env : TestEnv) (fuel : nat) (w : World B) :
  Getenv env "THANOS_ALLOW_EXISTING_BUCKET_USE" = "" ->
  NewTestBucket ext env fuel w
    = (Return (Err (if String.eqb (Getenv env "OSS_BUCKET") "" ||
                       String.eqb (Getenv env "OSS_ENDPOINT") "" ||
                       String.eqb (Getenv env "OSS_ACCESSID") "" ||
                       String.eqb (Getenv env "OSS_ACCESSKEY") ""
                    then insufficient
                    else bucketIsDefined)),
       [], w) /\
  (Getenv env "OSS_BUCKET" = "" \/ Getenv env "OSS_ENDPOINT" = "" \/
   Getenv env "OSS_ACCESSID" = "" \/ Getenv env "OSS_ACCESSKEY" = "" ->
   NewTestBucket ext env fuel w = (Return (Err insufficient), [], w)) /\
  (Getenv env "OSS_BUCKET" <> "" -> Getenv env "OSS_ENDPOINT" <> "" ->
   Getenv env "OSS_ACCESSID" <> "" -> Getenv env "OSS_ACCESSKEY" <> "" ->
   NewTestBucket ext env fuel w = (Return (Err bucketIsDefined), [], w)).
Proof.
  intros Hperm.
  assert (Hrun : NewTestBucket ext env fuel w
                 = (Return (Err (if String.eqb (Getenv env "OSS_BUCKET") "" ||
                                    String.eqb (Getenv env "OSS_ENDPOINT") "" ||
                                    String.eqb (Getenv env "OSS_ACCESSID") "" ||
                                    String.eqb (Getenv env "OSS_ACCESSKEY") ""
                                 then insufficient
                                 else bucketIsDefined)),
                    [], w)).
  { unfold NewTestBucket, validateForTest, configFromEnv.
    cbn [Bucket Endpoint AccessID AccessKey]. rewrite Hperm.
    destruct (String.eqb (Getenv env "OSS_BUCKET") "");
    destruct (String.eqb (Getenv env "OSS_ENDPOINT") "");
    destruct (String.eqb (Getenv env "OSS_ACCESSID") "");
    destruct (String.eqb (Getenv env "OSS_ACCESSKEY") "");
    reflexivity. }
  split; [exact Hrun|]. rewrite Hrun. split.
  - intros Hmiss.
    destruct (String.eqb_spec (Getenv env "OSS_BUCKET") "");
    destruct (String.eqb_spec (Getenv env "OSS_ENDPOINT") "");
    destruct (String.eqb_spec (Getenv env "OSS_ACCESSID") "");
    destruct (String.eqb_spec (Getenv env "OSS_ACCESSKEY") "");
    try reflexivity. tauto.
  - intros Hb He Hi Hk.
    destruct (String.eqb_spec (Getenv env "OSS_BUCKET") ""); [contradiction|].
    destruct (String.eqb_spec (Getenv env "OSS_ENDPOINT") ""); [contradiction|].
    destruct (String.eqb_spec (Getenv env "OSS_ACCESSID") ""); [contradiction|].
    destruct (String.eqb_spec (Getenv env "OSS_ACCESSKEY") ""); [contradiction|].
    reflexivity.
Qed.

(** X18: the temporary-bucket path is never taken.  What NewTestBucket
    does is the same whatever the random number and whatever the two
    calls that shape the temporary name return, and a close function it
    hands back is never the one that logs the deletion. *)
Theorem NewTestBucket_never_makes_a_bucket (getenv : string -> string)
  (n1 n2 : Z) (sp1 sp2 : Z -> string)
  (rp1 rp2 : string -> string -> string -> Z -> string)
  (fuel : nat) (w : World B) :
  NewTestBucket ext (mkTestEnv getenv n1 sp1 rp1) fuel w
    = NewTestBucket ext (mkTestEnv getenv n2 sp2 rp2) fuel w /\
  (forall b close,
     fst (fst (NewTestBucket ext (mkTestEnv getenv n1 sp1 rp1) fuel w))
       = Return (Ok (b, close)) ->
     close = closeNothing).
Proof.
  unfold NewTestBucket. cbn [Getenv]. rewrite validateForTest_validate.
  destruct (validate (configFromEnv getenv)) as [e|] eqn:Hv.
  - split; [reflexivity | discriminate].
  - pose proof (proj1 (proj2 (proj1 (validate_fields _)) Hv)) as Hb.
    destruct (String.eqb_spec (Bucket (configFromEnv getenv)) "") as [E|_];
      [contradiction|].
    cbn [negb]. split; [reflexivity|].
    intros b close.
    destruct (String.eqb (getenv "THANOS_ALLOW_EXISTING_BUCKET_USE") "");
      [discriminate|].
    destruct (yaml_Marshal ext (configFromEnv getenv)) as [bc|e]; [|discriminate].
    destruct (NewBucket ext (Some (NewNopLogger ext)) bc "thanos-e2e-test")
      as [b0|e]; [|discriminate].
    destruct (Iter (BucketStruct.bkt b0) (notEmpty (configFromEnv getenv)) fuel ""
                tt w) as [[[[e|]|v|] s'] w']; try discriminate.
    cbn [fst]. intros H. injection H as _ <-. reflexivity.
Qed.

(** X19: when NewTestBucket succeeds, the permission variable is set,
    the bucket handed back has a name that is not empty, the close
    function does nothing, one line was logged, and the listing of the
    bucket root showed no entry: the visitor was never invoked. *)
Theorem NewTestBucket_success (env : TestEnv) (fuel : nat) (w w' : World B)
  (b : BucketStruct.t L (oss.Client B)) (close : CloseFn)
  (logs : list (list string)) :
  NewTestBucket ext env fuel w = (Return (Ok (b, close)), logs, w') ->
  Getenv env "THANOS_ALLOW_EXISTING_BUCKET_USE" <> "" /\
  Name b <> "" /\
  close = closeNothing /\
  logs = [["WARNING. Reusing"; Getenv env "OSS_BUCKET";
           "OSS bucket for OSS tests. Manual cleanup afterwards is required"]] /\
  visited (trace w') = visited (trace w).
Proof.
  unfold NewTestBucket. rewrite validateForTest_validate.
  destruct (validate (configFromEnv (Getenv env))) as [e|] eqn:Hv; [discriminate|].
  pose proof (proj1 (proj2 (proj1 (validate_fields _)) Hv)) as Hb.
  destruct (String.eqb_spec (Bucket (configFromEnv (Getenv env))) "") as [E|_];
    [contradiction|].
  cbn [negb].
  destruct (String.eqb_spec (Getenv env "THANOS_ALLOW_EXISTING_BUCKET_USE") "")
    as [E|Hperm]; [discriminate|].
  destruct (yaml_Marshal ext (configFromEnv (Getenv env))) as [bc|e]; [|discriminate].
  destruct (NewBucket ext (Some (NewNopLogger ext)) bc "thanos-e2e-test")
    as [b0|e] eqn:Hnew; [|discriminate].
  pose proof (iterLoop_refusing (BucketStruct.bkt b0)
                (notEmpty (configFromEnv (Getenv env))) fuel (iterDir "") "" tt w) as Hit.
  unfold Iter.
  destruct (iterLoop (BucketStruct.bkt b0) (notEmpty (configFromEnv (Getenv env)))
              fuel (iterDir "") "" tt w) as [[[[e|]|v|] s'] w1]; try discriminate.
  intros H. injection H as <- <- <- <-.
  destruct (NewBucket_inversion ext _ _ _ _ Hnew) as (config & client & _ & _ & _ & Hname & _).
  repeat split; try assumption.
  apply Hit; [intros name s0; discriminate | reflexivity].
Qed.

(** X20: when the first page of the root listing holds a name, on an
    environment that passes the checks and a construction that succeeds,
    NewTestBucket fails with "oss check bucket B: bucket B is not
    empty" for the bucket B of the environment, after one request and
    one visit. *)
Theorem NewTestBucket_bucket_not_empty (env : TestEnv) (fuel : nat) (w : World B)
  (bc : bytes) (b : BucketStruct.t L (oss.Client B))
  (lor : oss.ListObjectsResult) (b1 : B) (n : string) (rest : list string) :
  validateForTest (configFromEnv (Getenv env)) = None ->
  Getenv env "THANOS_ALLOW_EXISTING_BUCKET_USE" <> "" ->
  yaml_Marshal ext (configFromEnv (Getenv env)) = Ok bc ->
  NewBucket ext (Some (NewNopLogger ext)) bc "thanos-e2e-test" = Ok b ->
  oss.ListObjects (BucketStruct.bkt b) (listOptions "" "") (backend w) = (Ok lor, b1) ->
  listNamesOf lor = n :: rest ->
  let refusal :=
    errors.Wrap (errors.Errorf ("bucket " ++ Getenv env "OSS_BUCKET" ++ " is not empty"))
                ("oss check bucket " ++ Getenv env "OSS_BUCKET") in
  NewTestBucket ext env (Datatypes.S fuel) w
    = (Return (Err refusal), [],
       mkWorld b1 (fs w)
         (trace w ++ [CallListObjects (listOptions "" "");
                      Visit n (Some (errors.Errorf
                                       ("bucket " ++ Getenv env "OSS_BUCKET"
                                        ++ " is not empty")))])) /\
  Error refusal
    = "oss check bucket " ++ Getenv env "OSS_BUCKET" ++ ": bucket "
      ++ Getenv env "OSS_BUCKET" ++ " is not empty".
Proof.
  intros Hv Hperm Hm Hnew Hlist Hnames refusal. split.
  - unfold NewTestBucket. rewrite Hv.
    rewrite validateForTest_validate in Hv.
    pose proof (proj1 (proj2 (proj1 (validate_fields _)) Hv)) as Hb.
    destruct (String.eqb_spec (Bucket (configFromEnv (Getenv env))) "") as [E|_];
      [contradiction|].
    cbn [negb].
    destruct (String.eqb_spec (Getenv env "THANOS_ALLOW_EXISTING_BUCKET_USE") "")
      as [E|_]; [contradiction|].
    rewrite Hm, Hnew. unfold Iter. change (iterDir "") with "".
    simpl iterLoop. unfold bkt_ListObjects. rewrite Hlist, Hnames.
    simpl visitAll. cbn [backend fs trace]. rewrite <- app_assoc. reflexivity.
  - unfold refusal. simpl Error. now rewrite append_assoc.
Qed.

End TestBucketFacts.

(** Witness of [NewTestBucket_needs_permission]: the four variables
    are set, the permission is not. *)
Lemma NewTestBucket_needs_permission_witness :
  NewTestBucket Fixtures.construct (Fixtures.testEnv "") 3 Fixtures.emptyWorld
    = (Return (Err bucketIsDefined), [], Fixtures.emptyWorld).
Proof.
  apply (proj2 (proj2 (NewTestBucket_needs_permission Fixtures.construct
                         (Fixtures.testEnv "") 3 Fixtures.emptyWorld eq_refl)));
    discriminate.
Defined.

(** Witness of [NewTestBucket_success]: an empty bucket and the
    permission to use it. *)
Lemma NewTestBucket_success_witness :
  Getenv (Fixtures.testEnv "true") "THANOS_ALLOW_EXISTING_BUCKET_USE" <> "" /\
  Name (BucketStruct.mk tt (Synthetic.client None) "thanos") <> "" /\
  closeNothing = closeNothing /\
  [["WARNING. Reusing"; "thanos";
    "OSS bucket for OSS tests. Manual cleanup afterwards is required"]]
    = [["WARNING. Reusing"; Getenv (Fixtures.testEnv "true") "OSS_BUCKET";
        "OSS bucket for OSS tests. Manual cleanup afterwards is required"]] /\
  visited (trace (mkWorld (∅ : gmap string bytes) ∅ [CallListObjects (listOptions "" "")]))
    = visited (trace Fixtures.emptyWorld).
Proof.
  apply (NewTestBucket_success Fixtures.construct (Fixtures.testEnv "true") 3
           Fixtures.emptyWorld
           (mkWorld ∅ ∅ [CallListObjects (listOptions "" "")])
           (BucketStruct.mk tt (Synthetic.client None) "thanos") closeNothing
           [["WARNING. Reusing"; "thanos";
             "OSS bucket for OSS tests. Manual cleanup afterwards is required"]]).
  vm_compute. reflexivity.
Defined.

(** Witness of [NewTestBucket_bucket_not_empty]. *)
Lemma NewTestBucket_bucket_not_empty_witness :
  NewTestBucket Fixtures.constructFlaky (Fixtures.testEnv "true") 1 (mkWorld tt ∅ [])
    = (Return (Err (errors.Wrap
                      (errors.Errorf ("bucket " ++ "thanos" ++ " is not empty"))
                      ("oss check bucket " ++ "thanos"))), [],
       mkWorld tt ∅
         ([] ++ [CallListObjects (listOptions "" "");
                 Visit "a/1" (Some (errors.Errorf
                                      ("bucket " ++ "thanos" ++ " is not empty")))])) /\
  Error (errors.Wrap (errors.Errorf ("bucket " ++ "thanos" ++ " is not empty"))
                     ("oss check bucket " ++ "thanos"))
    = "oss check bucket " ++ "thanos" ++ ": bucket " ++ "thanos" ++ " is not empty".
Proof.
  apply (NewTestBucket_bucket_not_empty Fixtures.constructFlaky
           (Fixtures.testEnv "true") 0 (mkWorld tt ∅ [])
           Synthetic.hello (BucketStruct.mk tt Fixtures.flaky "thanos")
           Synthetic.page1 tt "a/1" ["a/2"; "a/x/"]);
    try reflexivity.
  discriminate.
Defined.
